(** * download_and_merge_tiles.py: tile fetcher and grid assembler

    A shallow embedding of [src/download_and_merge_tiles.py].  The script
    performs network, clock and file-system effects and mutates one canvas.
    The embedding threads an explicit [World] (the chronological trace of
    external effects and the records handed to the logger) through a small
    state-and-exception monad.  The HTTP transport, the image codec and the
    file system are collaborators of the script: they enter as variables of
    the section below, the transport, the clock and the file system as
    functions of the effect history. *)

From Stdlib Require Import ZArith QArith List String Bool Lia Sorted.
From Stdlib Require Import Strings.Byte Strings.Ascii.
Import ListNotations.

Open Scope Z_scope.

(** ** Python values *)

(** The exception classes the script distinguishes.  [RequestException]
    stands for [requests.exceptions.RequestException] and its subclasses
    (connection errors, timeouts, [HTTPError]); [OtherException] for any
    other subclass of [Exception] (for instance the [OSError] of a corrupt
    image); [IndexError] is what list indexing raises out of range. *)
Inductive Exn : Type :=
| RequestException (what : string)
| OtherException (what : string)
| IndexError.

Definition Bytes := list byte.

(** A band tuple; an RGBA pixel has four bands. *)
Definition Pixel := list Z.

(** A PIL image whose pixel data is in memory. *)
Record Image : Type := mkImage {
  size : Z * Z;            (* (width, height) *)
  mode : string;
  px : Z -> Z -> Pixel     (* px x y *)
}.

(** What [Image.open] gives: the header is parsed, the pixel data is not
    read yet. *)
Record ImageFile : Type := mkImageFile {
  f_size : Z * Z;
  f_mode : string;
  f_data : Bytes
}.

Record Response : Type := mkResponse {
  status_code : Z;
  content : Exn + Bytes    (* reading the streamed body may itself fail *)
}.

Inductive Resampling : Type := NEAREST | LANCZOS.

(** ** Effects *)

Inductive Event : Type :=
| EvGet (url : string) (timeout : Z)
| EvSleep (seconds : Q)    (* [time.sleep]; the product is taken exactly *)
| EvMakedirs (path : string)
| EvNow
| EvSave (path : string) (image : Image).

Inductive Level : Type := INFO | WARNING | ERROR.

(** One constructor per message of the script, with the values the
    f-string interpolates. *)
Inductive Msg : Type :=
| MsgAttempt (attempt retries : Z) (url : string)
| MsgDownloaded (url : string)
| MsgRequestError (url : string) (attempt retries : Z) (e : Exn)
| MsgProcessingError (url : string) (attempt retries : Z) (e : Exn)
| MsgGaveUp (url : string) (retries : Z) (last_error : option Exn)
| MsgStart (total rows cols : Z)
| MsgTile (row1 col1 total : Z) (url : string)
| MsgResizing (url : string) (sz : Z * Z) (tile_size : Z)
| MsgPlaced (row1 col1 x y successful total : Z)
| MsgTileFailed (row1 col1 : Z) (url : string)
| MsgDownloadFailed (missing total : Z)
| MsgNotSaved
| MsgMissing (i : Z) (url : string)
| MsgDownloadSuccess (successful total : Z)
| MsgCreating
| MsgUpscaling (ow oh fw fh scale : Z)
| MsgNoUpscaling
| MsgSaved (path : string)
| MsgSaveError (e : Exn)
| MsgMainStart
| MsgRequirement (total : Z)
| MsgGrid (rows cols ow oh scale : Z)
| MsgSaving
| MsgCompleted
| MsgStoredAt (path : string)
| MsgSaveFailed
| MsgMergeFailed.

Record World : Type := mkWorld {
  trace : list Event;            (* oldest first *)
  log : list (Level * Msg)       (* oldest first *)
}.

Inductive Result (A : Type) : Type :=
| Ok (a : A)
| Raise (e : Exn).
Arguments Ok {A} a.
Arguments Raise {A} e.

Definition M (A : Type) : Type := World -> Result A * World.

Definition ret {A} (a : A) : M A := fun w => (Ok a, w).

Definition raise {A} (e : Exn) : M A := fun w => (Raise e, w).

Definition bind {A B} (m : M A) (k : A -> M B) : M B :=
  fun w =>
    match m w with
    | (Ok a, w') => k a w'
    | (Raise e, w') => (Raise e, w')
    end.

(** [try: m / except Exception as e: h e]. *)
Definition try_except {A} (m : M A) (h : Exn -> M A) : M A :=
  fun w =>
    match m w with
    | (Ok a, w') => (Ok a, w')
    | (Raise e, w') => h e w'
    end.

(** Runs [m] and hands its outcome to the caller as a value. *)
Definition attempt_of {A} (m : M A) : M (Exn + A) :=
  try_except (bind m (fun a => ret (inr a))) (fun e => ret (inl e)).

Definition lift {A} (r : Exn + A) : M A :=
  match r with
  | inl e => raise e
  | inr a => ret a
  end.

Declare Scope py_scope.
Delimit Scope py_scope with py.
Notation "x <- m ;; k" := (bind m (fun x => k))
  (at level 100, m at next level, right associativity) : py_scope.
Notation "m ;; k" := (bind m (fun _ => k))
  (at level 100, right associativity) : py_scope.
Open Scope py_scope.

Definition emit (e : Event) : M unit :=
  fun w => (Ok tt, mkWorld (trace w ++ [e]) (log w)).

Definition logger (l : Level) (m : Msg) : M unit :=
  fun w => (Ok tt, mkWorld (trace w) (log w ++ [(l, m)])).

(** ** Floats and [time.sleep] *)

(** A Python float: a finite double by its exact value, an infinity, or
    not-a-number. *)
Inductive PyFloat : Type :=
| Finite (q : Q)
| Inf (negative : bool)
| NaN.

(** [n / d] rounded to an integer, ties to even ([n >= 0], [d > 0]). *)
Definition round_half_even (n d : Z) : Z :=
  let q := n / d in
  let r := n mod d in
  match 2 * r ?= d with
  | Lt => q
  | Gt => q + 1
  | Eq => if Z.even q then q else q + 1
  end.

(** [2 ^ e <= n / d], for positive [n] and [d] and any integer [e]. *)
Definition at_least_pow2 (n d e : Z) : bool :=
  if 0 <=? e then d * 2 ^ e <=? n else d <=? n * 2 ^ (- e).

(** The [e] with [2 ^ e <= n / d < 2 ^ (e + 1)], for positive [n], [d]. *)
Definition binade (n d : Z) : Z :=
  let e0 := Z.log2 n - Z.log2 d in
  if at_least_pow2 n d e0 then e0 else e0 - 1.

(** The IEEE 754 binary64 value nearest to the rational [q], ties to even:
    53 significant bits, gradual underflow below [2 ^ -1022], an infinity
    from [2 ^ 1024] on. *)
Definition round_double (q : Q) : PyFloat :=
  let n := Z.abs (Qnum q) in
  let d := Z.pos (Qden q) in
  if n =? 0 then Finite 0
  else
    let u := Z.max (binade n d) (-1022) - 52 in
    let m :=
      if 0 <=? u then round_half_even n (d * 2 ^ u)
      else round_half_even (n * 2 ^ (- u)) d in
    if (0 <=? u) && (2 ^ 1024 <=? m * 2 ^ u) then Inf (Qnum q <? 0)
    else
      let s := if Qnum q <? 0 then -1 else 1 in
      Finite (Qred (if 0 <=? u then inject_Z (s * m * 2 ^ u)
                    else (s * m) # Z.to_pos (2 ^ (- u)))).

(** [x * y] on floats. *)
Definition float_mul (x y : PyFloat) : PyFloat :=
  match x, y with
  | NaN, _ | _, NaN => NaN
  | Finite a, Finite b => round_double (a * b)
  | Inf s, Finite b | Finite b, Inf s =>
      if Qeq_bool b 0 then NaN else Inf (xorb s (Qnum b <? 0))
  | Inf s, Inf t => Inf (xorb s t)
  end.

(** [float(k)] for an int: an int beyond the doubles raises. *)
Definition float_of_int (k : Z) : Exn + PyFloat :=
  match round_double (inject_Z k) with
  | Inf _ => inl (OtherException "OverflowError")
  | x => inr x
  end.

(** [x * k] for a float [x] and an int [k]. *)
Definition py_mul (x : PyFloat) (k : Z) : Exn + PyFloat :=
  match float_of_int k with
  | inl e => inl e
  | inr y => inr (float_mul x y)
  end.

(** What [time.sleep(secs)] does: it converts [secs] to a signed 64-bit
    count of nanoseconds and raises [OverflowError] when that does not
    fit, [ValueError] for not-a-number and for a negative length;
    otherwise it sleeps [secs] seconds. *)
Definition sleep_outcome (secs : PyFloat) : Exn + Q :=
  match secs with
  | NaN => inl (OtherException "ValueError")
  | Inf _ => inl (OtherException "OverflowError")
  | Finite q =>
      match round_double (q * inject_Z (10 ^ 9)) with
      | Finite ns =>
          if Qle_bool (inject_Z (2 ^ 63)) ns
             || negb (Qle_bool (inject_Z (- 2 ^ 63)) ns)
          then inl (OtherException "OverflowError")
          else if Qle_bool 0 q then inr q
          else inl (OtherException "ValueError")
      | _ => inl (OtherException "OverflowError")
      end
  end.

Definition time_sleep (secs : PyFloat) : M unit :=
  match sleep_outcome secs with
  | inl e => raise e
  | inr q => emit (EvSleep q)
  end.

Arguments round_double : simpl never.
Arguments float_of_int : simpl never.
Arguments py_mul : simpl never.
Arguments sleep_outcome : simpl never.

(** [range(lo, hi)]. *)
Definition range (lo hi : Z) : list Z :=
  map (fun i => lo + Z.of_nat i) (seq 0 (Z.to_nat (hi - lo))).

(** Projections of a trace. *)
Definition gets (t : list Event) : list (string * Z) :=
  flat_map (fun e => match e with EvGet u s => [(u, s)] | _ => [] end) t.

Definition sleeps (t : list Event) : list Q :=
  flat_map (fun e => match e with EvSleep s => [s] | _ => [] end) t.

Definition saves (t : list Event) : list (string * Image) :=
  flat_map (fun e => match e with EvSave p i => [(p, i)] | _ => [] end) t.

Definition fs_events (t : list Event) : list Event :=
  filter (fun e => match e with
                   | EvMakedirs _ | EvNow | EvSave _ _ => true
                   | _ => false
                   end) t.

(** ** Sample collaborators

    Closed collaborators and the constants of the script, for running the
    embedding on concrete inputs. *)
Module Sample.

Definition w0 : World := mkWorld [] [].

Definition png : Bytes := [x89; x50; x4e; x47].

(** A server that answers every request with a tile. *)
Definition served : list Event -> string -> Z -> Exn + Response :=
  fun _ _ _ => inr (mkResponse 200 (inr png)).

(** A server that cannot be reached. *)
Definition refused : list Event -> string -> Z -> Exn + Response :=
  fun _ _ _ => inl (RequestException "ConnectionError").

(** A server that answers every request with HTTP 500. *)
Definition status_500 : list Event -> string -> Z -> Exn + Response :=
  fun _ _ _ => inr (mkResponse 500 (inr [])).

(** A server that answers 200 with a body that is no image. *)
Definition empty_body : list Event -> string -> Z -> Exn + Response :=
  fun _ _ _ => inr (mkResponse 200 (inr [])).

(** A server that answers HTTP 500 for [bad] and a tile otherwise. *)
Definition missing (bad : string)
  : list Event -> string -> Z -> Exn + Response :=
  fun _ url _ =>
    if (url =? bad)%string then inr (mkResponse 500 (inr []))
    else inr (mkResponse 200 (inr png)).

(** A server whose first two replies are refused and which serves after. *)
Definition flaky : list Event -> string -> Z -> Exn + Response :=
  fun t _ _ =>
    if (List.length (gets t) <? 2)%nat
    then inl (RequestException "Timeout")
    else inr (mkResponse 200 (inr png)).

Definition open_png : Bytes -> Exn + ImageFile :=
  fun body =>
    match body with
    | [] => inl (OtherException "UnidentifiedImageError")
    | _ => inr (mkImageFile (1000, 1000) "RGBA" body)
    end.

(** A codec whose tiles come out too small and without alpha. *)
Definition open_small : Bytes -> Exn + ImageFile :=
  fun body => inr (mkImageFile (512, 512) "RGB" body).

Definition decode_png : ImageFile -> Exn + (Z -> Z -> Pixel) :=
  fun _ => inr (fun _ _ => [10; 20; 30; 255]).

Definition resample : Resampling -> Image -> Z * Z -> Z -> Z -> Pixel :=
  fun _ im sz x y =>
    px im (x * fst (size im) / fst sz) (y * snd (size im) / snd sz).

Definition convert_pixels : Image -> string -> Z -> Z -> Pixel :=
  fun im _ x y => firstn 3 (px im x y) ++ [255].

Definition blend : Pixel -> Pixel -> Pixel -> Pixel :=
  fun canvas source mask =>
    match nth 3 mask 0 with
    | 0 => canvas
    | _ => source
    end.

(** A library that builds every image whose sides are at least 1 and fit
    a C [int]. *)
Definition resize_raises : Image -> Z * Z -> Resampling -> option Exn :=
  fun _ sz _ =>
    let fits a := (- 2 ^ 31 <=? a) && (a <? 2 ^ 31) in
    if negb (fits (fst sz) && fits (snd sz))
    then Some (OtherException "OverflowError")
    else if (fst sz <? 1) || (snd sz <? 1)
    then Some (OtherException "ValueError")
    else None.

Definition makedirs : list Event -> string -> option Exn :=
  fun _ _ => None.

Definition clock : list Event -> string -> string :=
  fun _ fmt =>
    if (fmt =? "%Y%m%d")%string then "20250817"%string
    else "20250817_120000"%string.

Definition save : list Event -> string -> Image -> option Exn :=
  fun _ _ _ => None.

Definition disk_full : list Event -> string -> Image -> option Exn :=
  fun _ _ _ => Some (OtherException "OSError").

(** Lines 23-37 of the script. *)
Definition TILE_URLS : list (list string) :=
  [ [ "https://backend.wplace.live/files/s0/tiles/1664/1065.png";
      "https://backend.wplace.live/files/s0/tiles/1665/1065.png";
      "https://backend.wplace.live/files/s0/tiles/1666/1065.png" ];
    [ "https://backend.wplace.live/files/s0/tiles/1664/1066.png";
      "https://backend.wplace.live/files/s0/tiles/1665/1066.png";
      "https://backend.wplace.live/files/s0/tiles/1666/1066.png" ] ]%string.

Definition TILE_SIZE : Z := 1000.

End Sample.

Section Script.

(** ** Collaborators *)

(** [requests.get(url, timeout=timeout, stream=True)]: the reply may depend
    on everything that happened before the request. *)
Variable http_get : list Event -> string -> Z -> Exn + Response.

(** [Image.open(BytesIO(content))] and the decoder behind [image.load()]. *)
Variable Image_open : Bytes -> Exn + ImageFile.
Variable decode_pixels : ImageFile -> Exn + (Z -> Z -> Pixel).

(** ** download_image *)

Definition requests_get (url : string) (timeout : Z) : M Response :=
  fun w =>
    let w' := mkWorld (trace w ++ [EvGet url timeout]) (log w) in
    match http_get (trace w) url timeout with
    | inl e => (Raise e, w')
    | inr r => (Ok r, w')
    end.

(** [Response.raise_for_status]: a 4xx or 5xx status raises [HTTPError]. *)
Definition raise_for_status (r : Response) : M unit :=
  if (400 <=? status_code r) && (status_code r <? 600)
  then raise (RequestException "HTTPError")
  else ret tt.

(** [image.load()]: the opened file becomes an image with its pixels. *)
Definition load (f : ImageFile) : M Image :=
  p <- lift (decode_pixels f) ;;
  ret (mkImage (f_size f) (f_mode f) p).

(** The body of the [try] block, lines 65-72. *)
Definition try_download (url : string) (timeout attempt retries : Z)
  : M Image :=
  logger INFO (MsgAttempt attempt retries url) ;;
  response <- requests_get url timeout ;;
  raise_for_status response ;;
  content <- lift (content response) ;;
  image <- lift (Image_open content) ;;
  image <- load image ;;
  logger INFO (MsgDownloaded url) ;;
  ret image.

(** The two [except] clauses, lines 73-78. *)
Definition except_clauses (url : string) (attempt retries : Z) (e : Exn)
  : M unit :=
  match e with
  | RequestException _ =>
      logger WARNING (MsgRequestError url attempt retries e)
  | _ =>
      logger WARNING (MsgProcessingError url attempt retries e)
  end.

(** The [for attempt in range(1, retries + 1)] loop over the attempts still
    to make, with the local [last_error]. *)
Fixpoint download_attempts (url : string) (timeout retries : Z)
    (backoff_seconds : PyFloat) (attempts : list Z)
    (last_error : option Exn)
  : M (option Image) :=
  match attempts with
  | [] =>
      logger ERROR (MsgGaveUp url retries last_error) ;;
      ret None
  | attempt :: rest =>
      r <- attempt_of (try_download url timeout attempt retries) ;;
      match r with
      | inr image => ret (Some image)
      | inl e =>
          except_clauses url attempt retries e ;;
          (if attempt <? retries
           then
             sleep_seconds <- lift (py_mul backoff_seconds attempt) ;;
             time_sleep sleep_seconds
           else ret tt) ;;
          download_attempts url timeout retries backoff_seconds rest (Some e)
      end
  end.

Definition download_image (url : string) (timeout retries : Z)
    (backoff_seconds : PyFloat) : M (option Image) :=
  download_attempts url timeout retries backoff_seconds
    (range 1 (retries + 1)) None.

(** What one attempt at [url] yields when the effect history is [t]. *)
Definition fetch_once (t : list Event) (url : string) (timeout : Z)
  : Exn + Image :=
  match http_get t url timeout with
  | inl e => inl e
  | inr r =>
      if (400 <=? status_code r) && (status_code r <? 600)
      then inl (RequestException "HTTPError")
      else match content r with
           | inl e => inl e
           | inr body =>
               match Image_open body with
               | inl e => inl e
               | inr f =>
                   match decode_pixels f with
                   | inl e => inl e
                   | inr p => inr (mkImage (f_size f) (f_mode f) p)
                   end
               end
           end
  end.

(** [Image.new], [Image.resize], [Image.convert] and [Image.paste] of PIL,
    by what they return: the requested size and mode, the pixel values left
    to the library's filters. *)
Variable resample : Resampling -> Image -> Z * Z -> Z -> Z -> Pixel.
Variable convert_pixels : Image -> string -> Z -> Z -> Pixel.
Variable blend : Pixel -> Pixel -> Pixel -> Pixel.  (* canvas, source, mask *)

(** What [Image.resize] raises when it refuses a request, a side below 1
    or beyond a C [int], or an image the machine cannot hold: left to the
    library and the machine. *)
Variable resize_raises : Image -> Z * Z -> Resampling -> option Exn.

(** [os.makedirs(path, exist_ok=True)], [datetime.now(tz).strftime(fmt)]
    and [image.save(path, "PNG", ...)]. *)
Variable fs_makedirs : list Event -> string -> option Exn.
Variable clock : list Event -> string -> string.
Variable fs_save : list Event -> string -> Image -> option Exn.

Definition Image_new (m : string) (sz : Z * Z) (color : Pixel) : Image :=
  mkImage sz m (fun _ _ => color).

(** The image [im.resize(sz, r)] returns, when it returns. *)
Definition resize (im : Image) (sz : Z * Z) (r : Resampling) : Image :=
  mkImage sz (mode im) (resample r im sz).

(** The call [im.resize(sz, r)] with an arbitrary requested size. *)
Definition Image_resize (im : Image) (sz : Z * Z) (r : Resampling)
  : M Image :=
  match resize_raises im sz r with
  | Some e => raise e
  | None => ret (resize im sz r)
  end.

Definition convert (im : Image) (m : string) : Image :=
  mkImage (size im) m (convert_pixels im m).

(** The pixels [paste] writes for a source of size [sz] at [box]: the
    source rectangle, clipped to the canvas. *)
Definition in_box (box sz canvas : Z * Z) (i j : Z) : bool :=
  (fst box <=? i) && (i <? fst box + fst sz) &&
  (snd box <=? j) && (j <? snd box + snd sz) &&
  (0 <=? i) && (i <? fst canvas) && (0 <=? j) && (j <? snd canvas).

(** [self.paste(im, box, mask)], returning the canvas after the update. *)
Definition paste (self im : Image) (box : Z * Z) (mask : Image) : Image :=
  mkImage (size self) (mode self)
    (fun i j =>
       if in_box box (size im) (size self) i j
       then blend (px self i j)
                  (px im (i - fst box) (j - snd box))
                  (px mask (i - fst box) (j - snd box))
       else px self i j).

(** ** Module constants *)

Variable TILE_URLS : list (list string).
Variable TILE_SIZE : Z.
Variable SCALE_FACTOR : Z.

Definition len {A} (l : list A) : Z := Z.of_nat (List.length l).

Definition GRID_ROWS : Z := len TILE_URLS.
Definition GRID_COLS : Z :=
  match TILE_URLS with
  | [] => 0
  | row0 :: _ => len row0
  end.
Definition TOTAL_TILES : Z := GRID_ROWS * GRID_COLS.
Definition ORIGINAL_WIDTH : Z := TILE_SIZE * GRID_COLS.
Definition ORIGINAL_HEIGHT : Z := TILE_SIZE * GRID_ROWS.
Definition FINAL_WIDTH : Z := ORIGINAL_WIDTH * SCALE_FACTOR.
Definition FINAL_HEIGHT : Z := ORIGINAL_HEIGHT * SCALE_FACTOR.

(** ** create_merged_image *)

(** [l[i]] for a list. *)
Definition index {A} (l : list A) (i : Z) : M A :=
  let j := if i <? 0 then i + len l else i in
  if (0 <=? j) && (j <? len l)
  then match nth_error l (Z.to_nat j) with
       | Some a => ret a
       | None => raise IndexError
       end
  else raise IndexError.

(** A [for x in xs:] loop over the local state [s]. *)
Fixpoint for_each {X S} (xs : list X) (body : X -> S -> M S) (s : S)
  : M S :=
  match xs with
  | [] => ret s
  | x :: rest => s' <- body x s ;; for_each rest body s'
  end.

(** The locals the double loop updates. *)
Record Locals : Type := mkLocals {
  merged_image : Image;
  failed_tiles : list string;
  successful_tiles : Z
}.

Definition size_eqb (a b : Z * Z) : bool :=
  (fst a =? fst b) && (snd a =? snd b).

(** Lines 107-111: the tile as it is pasted.  The resize asks for the tile
    size, a constant of the module, and is taken to return. *)
Definition normalized (tile : Image) : Image :=
  let tile :=
    if size_eqb (size tile) (TILE_SIZE, TILE_SIZE) then tile
    else resize tile (TILE_SIZE, TILE_SIZE) LANCZOS in
  if (mode tile =? "RGBA")%string then tile else convert tile "RGBA".

(** Lines 102-119: the body of the inner loop. *)
Definition loop_body (row col : Z) (s : Locals) : M Locals :=
  urls <- index TILE_URLS row ;;
  url <- index urls col ;;
  logger INFO (MsgTile (row + 1) (col + 1) TOTAL_TILES url) ;;
  tile <- download_image url 30 5 (Finite (3 # 2)) ;;
  match tile with
  | Some tile =>
      (if size_eqb (size tile) (TILE_SIZE, TILE_SIZE) then ret tt
       else logger WARNING (MsgResizing url (size tile) TILE_SIZE)) ;;
      let tile := normalized tile in
      let x := col * TILE_SIZE in
      let y := row * TILE_SIZE in
      let merged := paste (merged_image s) tile (x, y) tile in
      let successful := successful_tiles s + 1 in
      logger INFO
        (MsgPlaced (row + 1) (col + 1) x y successful TOTAL_TILES) ;;
      ret (mkLocals merged (failed_tiles s) successful)
  | None =>
      let failed := failed_tiles s ++ [url] in
      logger ERROR (MsgTileFailed (row + 1) (col + 1) url) ;;
      ret (mkLocals (merged_image s) failed (successful_tiles s))
  end.

(** Lines 93-119: the canvas, the two counters and the double loop. *)
Definition blank_canvas : Image :=
  Image_new "RGBA" (ORIGINAL_WIDTH, ORIGINAL_HEIGHT) [0; 0; 0; 0].

Definition tile_loop : M Locals :=
  logger INFO (MsgStart TOTAL_TILES GRID_ROWS GRID_COLS) ;;
  for_each (range 0 GRID_ROWS)
    (fun row => for_each (range 0 GRID_COLS) (fun col => loop_body row col))
    (mkLocals blank_canvas [] 0).

(** [enumerate(xs, start)]. *)
Fixpoint enumerate {A} (xs : list A) (start : Z) : list (Z * A) :=
  match xs with
  | [] => []
  | x :: rest => (start, x) :: enumerate rest (start + 1)
  end.

(** Lines 121-137: the completion policy and the upscaling.  The resize of
    line 133 is in no [try]: what it raises leaves the function. *)
Definition finish (s : Locals) : M (option Image) :=
  match failed_tiles s with
  | _ :: _ =>
      logger ERROR (MsgDownloadFailed (len (failed_tiles s)) TOTAL_TILES) ;;
      logger ERROR MsgNotSaved ;;
      for_each (enumerate (failed_tiles s) 1)
        (fun iu _ => logger ERROR (MsgMissing (fst iu) (snd iu))) tt ;;
      ret None
  | [] =>
      logger INFO (MsgDownloadSuccess (successful_tiles s) TOTAL_TILES) ;;
      logger INFO MsgCreating ;;
      if SCALE_FACTOR >? 1
      then
        logger INFO (MsgUpscaling ORIGINAL_WIDTH ORIGINAL_HEIGHT
                       FINAL_WIDTH FINAL_HEIGHT SCALE_FACTOR) ;;
        scaled_image <-
          Image_resize (merged_image s) (FINAL_WIDTH, FINAL_HEIGHT) NEAREST ;;
        ret (Some scaled_image)
      else
        logger INFO MsgNoUpscaling ;;
        ret (Some (merged_image s))
  end.

Definition create_merged_image : M (option Image) :=
  s <- tile_loop ;;
  finish s.

(** ** save_image *)

Definition os_makedirs (path : string) : M unit :=
  fun w =>
    let w' := mkWorld (trace w ++ [EvMakedirs path]) (log w) in
    match fs_makedirs (trace w) path with
    | Some e => (Raise e, w')
    | None => (Ok tt, w')
    end.

Definition now_strftime (fmt : string) : M string :=
  fun w => (Ok (clock (trace w) fmt), mkWorld (trace w ++ [EvNow]) (log w)).

Definition Image_save (image : Image) (path : string) : M unit :=
  fun w =>
    let w' := mkWorld (trace w ++ [EvSave path image]) (log w) in
    match fs_save (trace w) path image with
    | Some e => (Raise e, w')
    | None => (Ok tt, w')
    end.

Fixpoint endswith_sep (s : string) : bool :=
  match s with
  | EmptyString => false
  | String c EmptyString => Ascii.eqb c "/"%char
  | String _ rest => endswith_sep rest
  end.

(** [os.path.join(a, b)] of [posixpath]. *)
Definition path_join (a b : string) : string :=
  if String.prefix "/" b then b
  else if (a =? "")%string || endswith_sep a then (a ++ b)%string
  else (a ++ "/" ++ b)%string.

Definition save_image (image : Image) (output_dir : string)
  : M (option string) :=
  try_except
    (os_makedirs output_dir ;;
     today <- now_strftime "%Y%m%d" ;;
     let today_folder := path_join output_dir today in
     os_makedirs today_folder ;;
     timestamp <- now_strftime "%Y%m%d_%H%M%S" ;;
     let filename := ("merged_tiles_" ++ timestamp ++ ".png")%string in
     let filepath := path_join today_folder filename in
     Image_save image filepath ;;
     logger INFO (MsgSaved filepath) ;;
     ret (Some filepath))
    (fun e =>
       logger ERROR (MsgSaveError e) ;;
       ret None).

(** ** main *)

(** Truth value of [saved_path]: [None] and the empty string are false. *)
Definition truthy (p : option string) : bool :=
  match p with
  | Some s => negb (s =? "")%string
  | None => false
  end.

Definition main : M bool :=
  logger INFO MsgMainStart ;;
  logger INFO (MsgRequirement TOTAL_TILES) ;;
  logger INFO (MsgGrid GRID_ROWS GRID_COLS ORIGINAL_WIDTH ORIGINAL_HEIGHT
                 SCALE_FACTOR) ;;
  merged_image <- create_merged_image ;;
  match merged_image with
  | Some merged_image =>
      logger INFO MsgSaving ;;
      saved_path <- save_image merged_image "output" ;;
      if truthy saved_path
      then
        logger INFO MsgCompleted ;;
        logger INFO (MsgStoredAt
                       (match saved_path with Some p => p | None => "" end)) ;;
        ret true
      else
        logger ERROR MsgSaveFailed ;;
        ret false
  | None =>
      logger ERROR MsgMergeFailed ;;
      ret false
  end.

(** Lines 190-192: the status the process exits with.  An exception that
    leaves [main] ends the interpreter with a traceback. *)
Inductive Exit : Type :=
| ExitCode (code : Z)
| Traceback (e : Exn).

Definition script (w : World) : Exit * World :=
  match main w with
  | (Ok success, w') => (ExitCode (if success then 0 else 1), w')
  | (Raise e, w') => (Traceback e, w')
  end.

(** ** Reference readings of a run

    The definitions below do not belong to the script: they name what a run
    did, so that the theorems can speak about it. *)

(** Lines 80-81 for one attempt: the seconds slept, or what the product or
    [time.sleep] raises. *)
Definition pause (backoff_seconds : PyFloat) (attempt : Z) : Exn + Q :=
  match py_mul backoff_seconds attempt with
  | inl e => inl e
  | inr sleep_seconds => sleep_outcome sleep_seconds
  end.

Definition pause_seconds (backoff_seconds : PyFloat) (attempt : Z) : Q :=
  match pause backoff_seconds attempt with
  | inr q => q
  | inl _ => 0
  end.

(** The events one exhausted call of [download_image] adds when no pause
    raises: a request per attempt, and a pause after every attempt but the
    last. *)
Definition backoff_schedule (url : string) (timeout retries : Z)
    (backoff_seconds : PyFloat) (attempts : list Z) : list Event :=
  flat_map
    (fun attempt =>
       EvGet url timeout ::
       (if attempt <? retries
        then [EvSleep (pause_seconds backoff_seconds attempt)]
        else []))
    attempts.

(** [download_image(url)] as [create_merged_image] calls it, started with
    effect history [t]: what it returns and the history it leaves. *)
Definition fetch (url : string) (t : list Event)
  : option Image * list Event :=
  match download_image url 30 5 (Finite (3 # 2)) (mkWorld t []) with
  | (Ok tile, w) => (tile, trace w)
  | (Raise _, w) => (None, trace w)
  end.

Definition url_at (row col : Z) : string :=
  nth (Z.to_nat col) (nth (Z.to_nat row) TILE_URLS []) ""%string.

(** The cells in the order the double loop visits them. *)
Definition cells : list (Z * Z) :=
  flat_map (fun row => map (fun col => (row, col)) (range 0 GRID_COLS))
           (range 0 GRID_ROWS).

Record Cell : Type := mkCell {
  c_row : Z;
  c_col : Z;
  c_url : string;
  c_tile : option Image    (* what the fetch of this cell returned *)
}.

(** The fetches of the cells [cs], one after the other from history [t]. *)
Fixpoint fetch_cells (cs : list (Z * Z)) (t : list Event)
  : list Cell * list Event :=
  match cs with
  | [] => ([], t)
  | (row, col) :: rest =>
      let url := url_at row col in
      let (tile, t1) := fetch url t in
      let (out, t2) := fetch_cells rest t1 in
      (mkCell row col url tile :: out, t2)
  end.

Definition failed_urls (out : list Cell) : list string :=
  flat_map (fun c => match c_tile c with
                     | None => [c_url c]
                     | Some _ => []
                     end) out.

Definition fetched (out : list Cell) : list Cell :=
  filter (fun c => match c_tile c with Some _ => true | None => false end)
         out.

(** The canvas after pasting the fetched tiles of [out], in order. *)
Definition pasted (out : list Cell) (canvas : Image) : Image :=
  fold_left
    (fun cv c =>
       match c_tile c with
       | Some tile =>
           paste cv (normalized tile)
                 (c_col c * TILE_SIZE, c_row c * TILE_SIZE)
                 (normalized tile)
       | None => cv
       end)
    out canvas.

(** What one iteration does to the locals, given what the fetch returned. *)
Definition after_body (row col : Z) (s : Locals) (tile : option Image)
  : Locals :=
  match tile with
  | Some tile =>
      mkLocals
        (paste (merged_image s) (normalized tile)
               (col * TILE_SIZE, row * TILE_SIZE) (normalized tile))
        (failed_tiles s)
        (successful_tiles s + 1)
  | None =>
      mkLocals (merged_image s) (failed_tiles s ++ [url_at row col])
               (successful_tiles s)
  end.

(** The locals after the fetches [out] have been handled. *)
Definition after_cells (s : Locals) (out : list Cell) : Locals :=
  mkLocals (pasted out (merged_image s))
           (failed_tiles s ++ failed_urls out)
           (successful_tiles s + len (fetched out)).

(** The world in which [main] calls [create_merged_image]: three records
    were logged, nothing else happened. *)
Definition after_banner (w : World) : World :=
  mkWorld (trace w)
    (((log w ++ [(INFO, MsgMainStart)]) ++
      [(INFO, MsgRequirement TOTAL_TILES)]) ++
     [(INFO, MsgGrid GRID_ROWS GRID_COLS ORIGINAL_WIDTH ORIGINAL_HEIGHT
               SCALE_FACTOR)]).

(** The world in which [main] calls [save_image]. *)
Definition before_save (w : World) : World :=
  mkWorld (trace w) (log w ++ [(INFO, MsgSaving)]).

(** What line 133 raises for the canvas [canvas]; nothing where the line
    is not reached. *)
Definition upscale_raises (canvas : Image) : option Exn :=
  if SCALE_FACTOR >? 1
  then resize_raises canvas (FINAL_WIDTH, FINAL_HEIGHT) NEAREST
  else None.

(** The image lines 131-137 return for the canvas [canvas]. *)
Definition upscaled (canvas : Image) : Image :=
  if SCALE_FACTOR >? 1
  then resize canvas (FINAL_WIDTH, FINAL_HEIGHT) NEAREST
  else canvas.

(** The block of the canvas that belongs to cell [(row, col)]. *)
Definition in_block (row col i j : Z) : Prop :=
  col * TILE_SIZE <= i < col * TILE_SIZE + TILE_SIZE /\
  row * TILE_SIZE <= j < row * TILE_SIZE + TILE_SIZE.

(** Precondition of the assembler: every row is as long as the first. *)
Definition rectangular : Prop :=
  Forall (fun urls => len urls = GRID_COLS) TILE_URLS.

(** ** The fetcher *)

Lemma try_download_run url timeout attempt retries w :
  attempt_of (try_download url timeout attempt retries) w =
  match fetch_once (trace w) url timeout with
  | inl e =>
      (Ok (inl e),
       mkWorld (trace w ++ [EvGet url timeout])
               (log w ++ [(INFO, MsgAttempt attempt retries url)]))
  | inr image =>
      (Ok (inr image),
       mkWorld (trace w ++ [EvGet url timeout])
               (log w ++ [(INFO, MsgAttempt attempt retries url);
                          (INFO, MsgDownloaded url)]))
  end.
Proof.
  unfold attempt_of, try_except, try_download, bind, logger, requests_get,
    fetch_once, raise_for_status, load, lift; cbn.
  destruct (http_get (trace w) url timeout) as [e | r]; cbn; [reflexivity|].
  destruct ((400 <=? status_code r) && (status_code r <? 600)); cbn;
    [reflexivity|].
  destruct (content r) as [e | body]; cbn; [reflexivity|].
  destruct (Image_open body) as [e | f]; cbn; [reflexivity|].
  destruct (decode_pixels f) as [e | p]; cbn; [reflexivity|].
  rewrite <- app_assoc. reflexivity.
Qed.


Lemma range_snoc lo hi :
  lo <= hi -> range lo (hi + 1) = range lo hi ++ [hi].
Proof.
  intros H. unfold range.
  replace (Z.to_nat (hi + 1 - lo)) with (S (Z.to_nat (hi - lo))) by lia.
  rewrite seq_S, map_app. cbn. do 2 f_equal. lia.
Qed.

Lemma in_range lo hi k : In k (range lo hi) <-> lo <= k < hi.
Proof.
  unfold range. rewrite in_map_iff. split.
  - intros (i & <- & Hi). apply in_seq in Hi. lia.
  - intros Hk. exists (Z.to_nat (k - lo)). split; [lia|].
    apply in_seq. lia.
Qed.

Lemma length_range lo hi : List.length (range lo hi) = Z.to_nat (hi - lo).
Proof. unfold range. now rewrite length_map, length_seq. Qed.

Lemma gets_app t1 t2 : gets (t1 ++ t2) = gets t1 ++ gets t2.
Proof. apply flat_map_app. Qed.

Lemma sleeps_app t1 t2 : sleeps (t1 ++ t2) = sleeps t1 ++ sleeps t2.
Proof. apply flat_map_app. Qed.

Lemma except_clauses_run url attempt retries e w :
  except_clauses url attempt retries e w =
  (Ok tt,
   mkWorld (trace w)
     (log w ++
      [(WARNING,
        match e with
        | RequestException _ => MsgRequestError url attempt retries e
        | _ => MsgProcessingError url attempt retries e
        end)])).
Proof. destruct e; reflexivity. Qed.

(** Lines 80-81 when the product and [time.sleep] raise nothing. *)
Lemma pause_accepted b k q w :
  pause b k = inr q ->
  (sleep_seconds <- lift (py_mul b k) ;; time_sleep sleep_seconds) w =
  (Ok tt, mkWorld (trace w ++ [EvSleep q]) (log w)).
Proof.
  unfold pause, bind, time_sleep. intros Hq.
  destruct (py_mul b k) as [e | secs]; [discriminate|].
  cbn [lift ret]. now rewrite Hq.
Qed.



Section Fetcher.

Variables (url : string) (timeout retries : Z) (backoff_seconds : PyFloat).

Local Notation "'schedule'" :=
  (backoff_schedule url timeout retries backoff_seconds).

(** One failing attempt whose pause, if one is due, raises nothing: the
    request, the warning, the pause, and the loop goes on with the error
    remembered. *)
Lemma download_attempts_failed attempt rest last_error e w :
  fetch_once (trace w) url timeout = inl e ->
  (attempt < retries -> exists q, pause backoff_seconds attempt = inr q) ->
  download_attempts url timeout retries backoff_seconds
    (attempt :: rest) last_error w =
  download_attempts url timeout retries backoff_seconds rest (Some e)
    (mkWorld (trace w ++ schedule [attempt])
       (log w ++
        [(INFO, MsgAttempt attempt retries url);
         (WARNING,
          match e with
          | RequestException _ => MsgRequestError url attempt retries e
          | _ => MsgProcessingError url attempt retries e
          end)])).
Proof.
  intros He Hp. cbn [download_attempts]. unfold bind at 1.
  rewrite try_download_run, He.
  unfold bind at 1. rewrite except_clauses_run. cbn [trace log].
  unfold bind at 1.
  unfold backoff_schedule. cbn [flat_map]. rewrite app_nil_r.
  destruct (attempt <? retries) eqn:Hlt.
  - destruct Hp as [q Hq]; [now apply Z.ltb_lt|].
    rewrite (pause_accepted _ _ q _ Hq). cbn [trace log].
    unfold pause_seconds. rewrite Hq.
    now rewrite <- !app_assoc.
  - cbn [ret]. now rewrite <- !app_assoc.
Qed.


(** One successful attempt ends the call. *)
Lemma download_attempts_succeeded attempt rest last_error image w :
  fetch_once (trace w) url timeout = inr image ->
  download_attempts url timeout retries backoff_seconds
    (attempt :: rest) last_error w =
  (Ok (Some image),
   mkWorld (trace w ++ [EvGet url timeout])
           (log w ++ [(INFO, MsgAttempt attempt retries url);
                      (INFO, MsgDownloaded url)])).
Proof.
  intros He. cbn [download_attempts]. unfold bind at 1.
  now rewrite try_download_run, He.
Qed.

(** When every attempt fails the loop runs to its end: it returns [None],
    leaves the whole schedule in the trace, and its last record reports the
    error of the last attempt made. *)
Lemma download_attempts_exhausted :
  (forall t, exists e, fetch_once t url timeout = inl e) ->
  forall attempts,
  (forall k, In k attempts -> k < retries ->
     exists q, pause backoff_seconds k = inr q) ->
  forall last_error w,
  exists l last,
    download_attempts url timeout retries backoff_seconds
      attempts last_error w =
    (Ok None,
     mkWorld (trace w ++ schedule attempts)
             (log w ++ l ++ [(ERROR, MsgGaveUp url retries last)])) /\
    match rev attempts with
    | [] => last = last_error
    | _ :: before =>
        exists e,
          fetch_once (trace w ++ schedule (rev before)) url timeout = inl e /\
          last = Some e
    end.
Proof.
  intros Hfail attempts.
  induction attempts as [|attempt rest IH]; intros Hpause last_error w.
  - exists [], last_error. split; [|reflexivity].
    cbn. unfold bind, logger, ret; cbn. now rewrite app_nil_r.
  - destruct (Hfail (trace w)) as [e He].
    rewrite (download_attempts_failed attempt rest last_error e w He)
      by (apply Hpause; now left).
    assert (Hrest : forall k, In k rest -> k < retries ->
                      exists q, pause backoff_seconds k = inr q)
      by (intros k Hk; apply Hpause; now right).
    match goal with
    | |- context [mkWorld _ (log w ++ ?l0)] =>
        destruct (IH Hrest (Some e)
                    (mkWorld (trace w ++ schedule [attempt]) (log w ++ l0)))
          as (l & last & -> & Hlast);
        cbn [trace log] in *;
        exists (l0 ++ l), last
    end.
    split.
    + f_equal. f_equal.
      * rewrite <- app_assoc. f_equal.
        unfold backoff_schedule. cbn [flat_map].
        now rewrite app_nil_r.
      * now rewrite <- !app_assoc.
    + cbn [rev]. destruct (rev rest) as [|k before] eqn:Hrev.
      * cbn. subst last. exists e. split; [|reflexivity].
        unfold backoff_schedule. cbn. now rewrite app_nil_r.
      * cbn [app]. destruct Hlast as (e' & He' & ->).
        exists e'. split; [|reflexivity].
        rewrite <- He'. f_equal. rewrite <- app_assoc. f_equal.
        rewrite rev_app_distr. cbn [rev app].
        unfold backoff_schedule.
        change (attempt :: rev before) with ([attempt] ++ rev before).
        now rewrite flat_map_app.
Qed.

Lemma schedule_projections attempts :
  (forall k, In k attempts -> k < retries) ->
  gets (schedule attempts) = repeat (url, timeout) (List.length attempts) /\
  sleeps (schedule attempts) = map (pause_seconds backoff_seconds) attempts.
Proof.
  unfold backoff_schedule.
  induction attempts as [|k rest IH]; intros Hlt; [now split|].
  destruct IH as [IHg IHs].
  { intros k' Hk'. apply Hlt. right. exact Hk'. }
  assert (Hk : (k <? retries) = true).
  { apply Z.ltb_lt, Hlt. left. reflexivity. }
  cbn [flat_map]. rewrite Hk, gets_app, sleeps_app, IHg, IHs. now split.
Qed.



(** When no pause raises, the call raises nothing; it adds requests and
    pauses to the history and nothing else; and neither its result nor
    these events depend on what was logged before. *)
Lemma download_attempts_io attempts :
  (forall k, In k attempts -> k < retries ->
     exists q, pause backoff_seconds k = inr q) ->
  forall last_error t,
  exists tile added l,
    fs_events added = [] /\
    forall lg,
      download_attempts url timeout retries backoff_seconds
        attempts last_error (mkWorld t lg) =
      (Ok tile, mkWorld (t ++ added) (lg ++ l)).
Proof.
  induction attempts as [|attempt rest IH]; intros Hpause last_error t.
  - exists None, [], [(ERROR, MsgGaveUp url retries last_error)].
    split; [reflexivity|]. intros lg. rewrite app_nil_r. reflexivity.
  - assert (Hrest : forall k, In k rest -> k < retries ->
                      exists q, pause backoff_seconds k = inr q)
      by (intros k Hk; apply Hpause; now right).
    destruct (fetch_once t url timeout) as [e | image] eqn:He.
    + destruct (IH Hrest (Some e) (t ++ schedule [attempt]))
        as (tile & added & l & Hfs & H).
      exists tile, (schedule [attempt] ++ added). eexists. split.
      * unfold fs_events in *. rewrite filter_app, Hfs.
        unfold backoff_schedule. cbn [flat_map].
        now destruct (attempt <? retries).
      * intros lg.
        rewrite (download_attempts_failed attempt rest last_error e
                   (mkWorld t lg) He) by (apply Hpause; now left).
        cbn [trace log]. rewrite H, <- !app_assoc. reflexivity.
    + exists (Some image), [EvGet url timeout]. eexists.
      split; [reflexivity|]. intros lg.
      rewrite (download_attempts_succeeded attempt rest last_error image
                 (mkWorld t lg) He).
      reflexivity.
Qed.

Lemma range_cons lo hi : lo < hi -> range lo hi = lo :: range (lo + 1) hi.
Proof.
  intros H. unfold range.
  replace (Z.to_nat (hi - lo)) with (S (Z.to_nat (hi - (lo + 1)))) by lia.
  cbn [seq map]. f_equal; [lia|].
  rewrite <- seq_shift, map_map. apply map_ext. intros i. lia.
Qed.

Lemma range_empty lo hi : hi <= lo -> range lo hi = [].
Proof.
  intros H. unfold range.
  replace (Z.to_nat (hi - lo)) with 0%nat by lia. reflexivity.
Qed.

Lemma schedule_snoc a :
  1 <= a -> schedule (range 1 a) ++ schedule [a] = schedule (range 1 (a + 1)).
Proof.
  intros H. rewrite (range_snoc 1 a) by lia.
  unfold backoff_schedule. now rewrite flat_map_app.
Qed.

(** The loop from attempt [a] on, the attempts before [a] having failed
    from history [t0]: either every remaining attempt fails and the loop
    gives up, or it stops at the first attempt [k] that succeeds. *)
Lemma download_attempts_shape t0 m :
  (forall k, 1 <= k < retries ->
     exists q, pause backoff_seconds k = inr q) ->
  forall a last_error lg,
    1 <= a -> Z.of_nat m = retries + 1 - a ->
    exists r t' l,
      download_attempts url timeout retries backoff_seconds
        (range a (retries + 1)) last_error
        (mkWorld (t0 ++ schedule (range 1 a)) lg) =
      (Ok r, mkWorld t' (lg ++ l)) /\
      ((r = None /\
        t' = t0 ++ schedule (range 1 (retries + 1)) /\
        (forall j, a <= j <= retries ->
           exists e,
             fetch_once (t0 ++ schedule (range 1 j)) url timeout = inl e)) \/
       (exists k image,
          a <= k <= retries /\
          r = Some image /\
          t' = t0 ++ schedule (range 1 k) ++ [EvGet url timeout] /\
          fetch_once (t0 ++ schedule (range 1 k)) url timeout = inr image /\
          (forall j, a <= j < k ->
             exists e,
               fetch_once (t0 ++ schedule (range 1 j)) url timeout = inl e))).
Proof.
  intros Hpause.
  induction m as [|m IH]; intros a last_error lg Ha Hm.
  - rewrite range_empty by lia.
    exists None. do 2 eexists. split; [reflexivity|]. left.
    split; [reflexivity|]. split; [|intros j Hj; lia].
    replace (retries + 1) with a by lia. reflexivity.
  - rewrite range_cons by lia.
    destruct (fetch_once (t0 ++ schedule (range 1 a)) url timeout)
      as [e | image] eqn:He.
    + rewrite (download_attempts_failed a _ last_error e
                 (mkWorld (t0 ++ schedule (range 1 a)) lg) He)
        by (intros Hlt; apply Hpause; lia).
      cbn [trace log]. rewrite <- app_assoc, schedule_snoc by exact Ha.
      match goal with
      | |- context [mkWorld _ (lg ++ ?l0)] =>
          destruct (IH (a + 1) (Some e) (lg ++ l0))
            as (r & t' & l & Hrun & Hshape); [lia | lia |];
          exists r, t', (l0 ++ l)
      end.
      split; [rewrite Hrun, <- app_assoc; reflexivity|].
      destruct Hshape as [(-> & -> & Hfail) | (k & image & Hk & -> & -> & Hok & Hfail)].
      * left. split; [reflexivity|]. split; [reflexivity|].
        intros j Hj. destruct (Z.eq_dec j a) as [->|Hne];
          [exists e; exact He | apply Hfail; lia].
      * right. exists k, image. split; [lia|]. split; [reflexivity|].
        split; [reflexivity|]. split; [exact Hok|].
        intros j Hj. destruct (Z.eq_dec j a) as [->|Hne];
          [exists e; exact He | apply Hfail; lia].
    + rewrite (download_attempts_succeeded a _ last_error image
                 (mkWorld (t0 ++ schedule (range 1 a)) lg) He).
      cbn [trace log]. exists (Some image). do 2 eexists.
      split; [reflexivity|]. right. exists a, image.
      split; [lia|]. split; [reflexivity|].
      split; [now rewrite <- app_assoc|]. split; [exact He|].
      intros j Hj. lia.
Qed.

End Fetcher.


(** C7 (single attempt on success).  When the first request is answered
    with a successful status and a body that opens and loads,
    [download_image] makes that one request and no other, sleeps never, and
    returns the loaded image: header of the opened file, pixels as
    decoded. *)
Theorem download_image_first_attempt url timeout n b w r body f pixels :
  1 <= n ->
  http_get (trace w) url timeout = inr r ->
  (400 <=? status_code r) && (status_code r <? 600) = false ->
  content r = inr body ->
  Image_open body = inr f ->
  decode_pixels f = inr pixels ->
  exists w',
    download_image url timeout n b w =
      (Ok (Some (mkImage (f_size f) (f_mode f) pixels)), w') /\
    trace w' = trace w ++ [EvGet url timeout] /\
    gets (trace w') = gets (trace w) ++ [(url, timeout)] /\
    sleeps (trace w') = sleeps (trace w).
Proof.
  intros Hn Hget Hstatus Hbody Hopen Hload.
  assert (Honce : fetch_once (trace w) url timeout =
                  inr (mkImage (f_size f) (f_mode f) pixels)).
  { unfold fetch_once. now rewrite Hget, Hstatus, Hbody, Hopen, Hload. }
  unfold download_image.
  assert (Hrange : range 1 (n + 1) = 1 :: range 2 (n + 1)).
  { unfold range.
    replace (Z.to_nat (n + 1 - 1)) with (S (Z.to_nat (n + 1 - 2))) by lia.
    cbn [seq map]. f_equal. rewrite <- seq_shift, map_map.
    apply map_ext. intros i. lia. }
  rewrite Hrange.
  rewrite (download_attempts_succeeded url timeout n b 1 _ None _ w Honce).
  eexists. split; [reflexivity|]. cbn [trace].
  split; [reflexivity|].
  rewrite gets_app, sleeps_app. cbn. now rewrite app_nil_r.
Qed.


(** The pauses of the default call: 1.5, 3, 4.5 and 6 seconds, all exact
    and all accepted. *)
Lemma default_pause k :
  1 <= k < 5 ->
  exists q,
    pause (Finite (3 # 2)) k = inr q /\
    (q <= 6)%Q /\ (q == (3 # 2) * inject_Z k)%Q.
Proof.
  intros Hk.
  assert (Hcases : k = 1 \/ k = 2 \/ k = 3 \/ k = 4) by lia.
  destruct Hcases as [-> | [-> | [-> | ->]]];
    eexists; (split; [vm_compute; reflexivity|]);
    split; vm_compute; congruence.
Qed.

Lemma default_pauses k :
  1 <= k < 5 -> exists q, pause (Finite (3 # 2)) k = inr q.
Proof.
  intros Hk. destruct (default_pause k Hk) as (q & Hq & _). now exists q.
Qed.

(** ** The assembler *)

Lemma download_image_fetch url w :
  exists l,
    download_image url 30 5 (Finite (3 # 2)) w =
    (Ok (fst (fetch url (trace w))),
     mkWorld (snd (fetch url (trace w))) (log w ++ l)).
Proof.
  destruct (download_attempts_io url 30 5 (Finite (3 # 2))
              (range 1 (5 + 1))) with (last_error := @None Exn)
                                     (t := trace w)
    as (tile & added & l & _ & H).
  { intros k Hk Hlt. apply in_range in Hk. apply default_pauses. lia. }
  exists l. unfold fetch, download_image.
  rewrite (H []). destruct w as [t lg]. cbn [trace log fst snd].
  apply H.
Qed.

Lemma fs_events_app t1 t2 : fs_events (t1 ++ t2) = fs_events t1 ++ fs_events t2.
Proof. apply filter_app. Qed.

(** A fetch touches the network and the clock of [time.sleep] only. *)
Lemma fetch_fs_events url t : fs_events (snd (fetch url t)) = fs_events t.
Proof.
  destruct (download_attempts_io url 30 5 (Finite (3 # 2))
              (range 1 (5 + 1))) with (last_error := @None Exn) (t := t)
    as (tile & added & l & Hfs & H).
  { intros k Hk Hlt. apply in_range in Hk. apply default_pauses. lia. }
  unfold fetch, download_image. rewrite (H []). cbn [snd trace].
  now rewrite fs_events_app, Hfs, app_nil_r.
Qed.

Lemma fetch_cells_fs_events cs t :
  fs_events (snd (fetch_cells cs t)) = fs_events t.
Proof.
  revert t. induction cs as [|[row col] rest IH]; intros t; [reflexivity|].
  cbn [fetch_cells]. pose proof (fetch_fs_events (url_at row col) t) as Hf.
  destruct (fetch (url_at row col) t) as [tile t1]. cbn [snd] in Hf.
  specialize (IH t1). destruct (fetch_cells rest t1) as [out t2].
  cbn [snd] in *. congruence.
Qed.

Lemma index_in_range {A} (l : list A) (i : Z) (d : A) w :
  0 <= i < len l ->
  index l i w = (Ok (nth (Z.to_nat i) l d), w).
Proof.
  intros Hi. unfold index.
  replace (i <? 0) with false by (symmetry; apply Z.ltb_ge; lia).
  replace ((0 <=? i) && (i <? len l)) with true
    by (symmetry; apply andb_true_iff; split;
        [apply Z.leb_le | apply Z.ltb_lt]; lia).
  rewrite (nth_error_nth' l d); [reflexivity|]. unfold len in Hi. lia.
Qed.

Lemma index_out_of_range {A} (l : list A) (i : Z) w :
  len l <= i ->
  index l i w = (Raise IndexError, w).
Proof.
  intros Hi. unfold index.
  assert (0 <= len l) by (unfold len; lia).
  replace (i <? 0) with false by (symmetry; apply Z.ltb_ge; lia).
  replace ((0 <=? i) && (i <? len l)) with false; [reflexivity|].
  symmetry. apply andb_false_iff. right. apply Z.ltb_ge. lia.
Qed.

Lemma size_eqb_eq a b : size_eqb a b = true <-> a = b.
Proof.
  unfold size_eqb. destruct a, b. cbn.
  rewrite andb_true_iff, !Z.eqb_eq. split; [intros []|intros [=]]; now subst.
Qed.

Lemma normalized_size tile : size (normalized tile) = (TILE_SIZE, TILE_SIZE).
Proof.
  unfold normalized.
  destruct (size_eqb (size tile) (TILE_SIZE, TILE_SIZE)) eqn:Hs.
  - apply size_eqb_eq in Hs.
    destruct (mode tile =? "RGBA")%string; cbn; exact Hs.
  - cbn [mode resize].
    destruct (mode tile =? "RGBA")%string; reflexivity.
Qed.

Lemma normalized_mode tile : mode (normalized tile) = "RGBA"%string.
Proof.
  unfold normalized.
  destruct (size_eqb (size tile) (TILE_SIZE, TILE_SIZE));
    cbn [mode resize];
    destruct (mode tile =? "RGBA")%string eqn:Hm;
    try reflexivity; now apply String.eqb_eq in Hm.
Qed.

Lemma rectangular_row row :
  rectangular -> 0 <= row < GRID_ROWS ->
  len (nth (Z.to_nat row) TILE_URLS []) = GRID_COLS.
Proof.
  unfold rectangular, GRID_ROWS, len. intros Hrect Hrow.
  rewrite Forall_forall in Hrect. apply Hrect, nth_In. lia.
Qed.

Lemma loop_body_run row col s w :
  rectangular ->
  0 <= row < GRID_ROWS -> 0 <= col < GRID_COLS ->
  exists l,
    loop_body row col s w =
    (Ok (after_body row col s (fst (fetch (url_at row col) (trace w)))),
     mkWorld (snd (fetch (url_at row col) (trace w))) (log w ++ l)).
Proof.
  intros Hrect Hrow Hcol.
  pose proof (rectangular_row row Hrect Hrow) as Hlen.
  unfold loop_body. unfold bind at 1.
  rewrite (index_in_range TILE_URLS row []) by exact Hrow.
  unfold bind at 1.
  rewrite (index_in_range _ col ""%string) by (rewrite Hlen; exact Hcol).
  fold (url_at row col).
  unfold bind at 1. cbn [logger].
  unfold bind at 1.
  match goal with
  | |- context [download_image _ _ _ _ ?w1] =>
      destruct (download_image_fetch (url_at row col) w1) as [l ->]
  end.
  cbn [trace log].
  destruct (fst (fetch (url_at row col) (trace w))) as [tile|].
  - destruct (size_eqb (size tile) (TILE_SIZE, TILE_SIZE));
      unfold bind, logger, ret; cbn; eexists;
      rewrite <- ?app_assoc; reflexivity.
  - unfold bind, logger, ret; cbn; eexists;
      rewrite <- ?app_assoc; reflexivity.
Qed.

Lemma for_each_app {X S} (xs ys : list X) (body : X -> S -> M S) s w :
  for_each (xs ++ ys) body s w =
  bind (for_each xs body s) (fun s' => for_each ys body s') w.
Proof.
  revert s w. induction xs as [|x xs IH]; intros s w; [reflexivity|].
  cbn [app for_each]. unfold bind. destruct (body x s w) as [[s'|e] w'].
  - rewrite IH. reflexivity.
  - reflexivity.
Qed.

Lemma for_each_ext {X S} (xs : list X) (f g : X -> S -> M S) :
  (forall x s w, f x s w = g x s w) ->
  forall s w, for_each xs f s w = for_each xs g s w.
Proof.
  intros Hfg. induction xs as [|x xs IH]; intros s w; [reflexivity|].
  cbn. unfold bind. rewrite Hfg. destruct (g x s w) as [[s'|e] w'].
  - apply IH.
  - reflexivity.
Qed.

Lemma for_each_map {X Y S} (h : X -> Y) (xs : list X)
    (body : Y -> S -> M S) s w :
  for_each (map h xs) body s w = for_each xs (fun x => body (h x)) s w.
Proof.
  revert s w. induction xs as [|x xs IH]; intros s w; [reflexivity|].
  cbn. unfold bind. destruct (body (h x) s w) as [[s'|e] w'].
  - apply IH.
  - reflexivity.
Qed.

Lemma for_each_flat_map {X Y S} (g : X -> list Y) (xs : list X)
    (body : Y -> S -> M S) s w :
  for_each (flat_map g xs) body s w =
  for_each xs (fun x => for_each (g x) body) s w.
Proof.
  revert s w. induction xs as [|x xs IH]; intros s w; [reflexivity|].
  cbn [flat_map for_each]. rewrite for_each_app. unfold bind.
  destruct (for_each (g x) body s w) as [[s'|e] w'].
  - apply IH.
  - reflexivity.
Qed.

(** The double loop visits [cells], in that order. *)
Lemma double_loop_cells s w :
  for_each (range 0 GRID_ROWS)
    (fun row => for_each (range 0 GRID_COLS) (fun col => loop_body row col))
    s w =
  for_each cells (fun rc => loop_body (fst rc) (snd rc)) s w.
Proof.
  unfold cells. rewrite for_each_flat_map.
  apply for_each_ext. intros row s' w'.
  now rewrite for_each_map.
Qed.

Lemma cells_in_grid :
  Forall (fun rc => 0 <= fst rc < GRID_ROWS /\ 0 <= snd rc < GRID_COLS)
         cells.
Proof.
  apply Forall_forall. intros [row col] Hin.
  apply in_flat_map in Hin. destruct Hin as (row' & Hrow & Hin).
  apply in_map_iff in Hin. destruct Hin as (col' & [= <- <-] & Hcol).
  apply in_range in Hrow. apply in_range in Hcol. cbn. lia.
Qed.

Lemma length_cells : len cells = GRID_ROWS * GRID_COLS.
Proof.
  unfold cells, len.
  assert (H : forall rows,
    List.length
      (flat_map (fun row : Z =>
                   map (fun col : Z => (row, col)) (range 0 GRID_COLS))
                rows) =
    (List.length rows * List.length (range 0 GRID_COLS))%nat).
  { induction rows as [|r rows IH]; [reflexivity|].
    cbn [flat_map]. rewrite length_app, length_map, IH. reflexivity. }
  rewrite H, !length_range.
  assert (0 <= GRID_ROWS) by (unfold GRID_ROWS, len; lia).
  assert (0 <= GRID_COLS)
    by (unfold GRID_COLS, len; destruct TILE_URLS; lia).
  rewrite Nat2Z.inj_mul. rewrite !Z2Nat.id by lia. lia.
Qed.

Lemma for_each_cells_run cs :
  rectangular ->
  Forall (fun rc => 0 <= fst rc < GRID_ROWS /\ 0 <= snd rc < GRID_COLS) cs ->
  forall s w,
  exists l,
    for_each cs (fun rc => loop_body (fst rc) (snd rc)) s w =
    (Ok (after_cells s (fst (fetch_cells cs (trace w)))),
     mkWorld (snd (fetch_cells cs (trace w))) (log w ++ l)).
Proof.
  intros Hrect. induction cs as [|[row col] rest IH]; intros Hin s w.
  - exists []. cbn. unfold ret, after_cells, len. cbn.
    rewrite !app_nil_r, Z.add_0_r. now destruct s, w.
  - inversion Hin as [|? ? [Hrow Hcol] Hrest]; subst. cbn in Hrow, Hcol.
    cbn [for_each fst snd]. unfold bind.
    destruct (loop_body_run row col s w Hrect Hrow Hcol) as [l0 ->].
    destruct (IH Hrest
                (after_body row col s (fst (fetch (url_at row col) (trace w))))
                (mkWorld (snd (fetch (url_at row col) (trace w)))
                         (log w ++ l0))) as [l ->].
    cbn [trace log fetch_cells].
    destruct (fetch (url_at row col) (trace w)) as [tile t1].
    cbn [fst snd].
    destruct (fetch_cells rest t1) as [out t2]. cbn [fst snd].
    exists (l0 ++ l). rewrite <- app_assoc. f_equal. f_equal.
    unfold after_cells, after_body, pasted, failed_urls, fetched, len.
    destruct tile as [tile|]; cbn.
    + f_equal. lia.
    + now rewrite <- app_assoc.
Qed.

Lemma tile_loop_run w :
  rectangular ->
  exists l,
    tile_loop w =
    (Ok (mkLocals (pasted (fst (fetch_cells cells (trace w))) blank_canvas)
                  (failed_urls (fst (fetch_cells cells (trace w))))
                  (len (fetched (fst (fetch_cells cells (trace w)))))),
     mkWorld (snd (fetch_cells cells (trace w))) (log w ++ l)).
Proof.
  intros Hrect. unfold tile_loop. unfold bind, logger.
  rewrite double_loop_cells.
  match goal with
  | |- context [for_each cells _ ?s ?w1] =>
      destruct (for_each_cells_run cells Hrect cells_in_grid s w1) as [l ->]
  end.
  cbn [trace log]. eexists. rewrite <- app_assoc. reflexivity.
Qed.

Lemma nth_range {A} (l : list A) (d : A) :
  map (fun i => nth (Z.to_nat i) l d) (range 0 (len l)) = l.
Proof.
  unfold range, len. rewrite Z.sub_0_r, Nat2Z.id, map_map.
  erewrite map_ext; [|intros i; rewrite Z.add_0_l, Nat2Z.id; reflexivity].
  induction l as [|a l IH]; [reflexivity|].
  cbn [List.length seq map nth]. f_equal.
  rewrite <- seq_shift, map_map. exact IH.
Qed.

(** On a rectangular grid the cells carry the URLs of the grid, row after
    row. *)
Lemma urls_of_cells :
  rectangular ->
  map (fun rc => url_at (fst rc) (snd rc)) cells = List.concat TILE_URLS.
Proof.
  intros Hrect. unfold cells.
  rewrite flat_map_concat_map, concat_map, map_map.
  erewrite map_ext_in.
  - unfold GRID_ROWS. rewrite (nth_range TILE_URLS []). reflexivity.
  - intros row Hrow. apply in_range in Hrow.
    rewrite map_map. cbn [fst snd]. unfold url_at.
    rewrite <- (rectangular_row row Hrect Hrow).
    apply nth_range.
Qed.

Lemma fetch_cells_urls cs t :
  map c_url (fst (fetch_cells cs t)) =
  map (fun rc => url_at (fst rc) (snd rc)) cs.
Proof.
  revert t. induction cs as [|[row col] rest IH]; intros t; [reflexivity|].
  cbn [fetch_cells]. destruct (fetch (url_at row col) t) as [tile t1].
  specialize (IH t1). destruct (fetch_cells rest t1) as [out t2].
  cbn in *. now rewrite IH.
Qed.

Lemma fetched_or_failed out :
  len (fetched out) + len (failed_urls out) = len out.
Proof.
  unfold len, fetched, failed_urls.
  induction out as [|c out IH]; [reflexivity|].
  cbn [filter flat_map]. destruct (c_tile c); cbn [List.length app] in *; lia.
Qed.

Lemma failed_urls_nil out :
  failed_urls out = [] <-> Forall (fun c => c_tile c <> None) out.
Proof.
  unfold failed_urls. induction out as [|c out IH]; cbn [flat_map].
  - split; constructor.
  - destruct (c_tile c) eqn:Hc; cbn [app]; split.
    + intros H. constructor; [congruence | now apply IH].
    + intros H. inversion H; subst. now apply IH.
    + discriminate.
    + intros H. inversion H; subst. congruence.
Qed.

Lemma pasted_size out canvas : size (pasted out canvas) = size canvas.
Proof.
  unfold pasted. revert canvas.
  induction out as [|c out IH]; intros canvas; [reflexivity|].
  cbn [fold_left]. rewrite IH. now destruct (c_tile c).
Qed.

Lemma pasted_mode out canvas : mode (pasted out canvas) = mode canvas.
Proof.
  unfold pasted. revert canvas.
  induction out as [|c out IH]; intros canvas; [reflexivity|].
  cbn [fold_left]. rewrite IH. now destruct (c_tile c).
Qed.

Lemma log_each {X} (xs : list X) (f : X -> Msg) w :
  for_each xs (fun x _ => logger ERROR (f x)) tt w =
  (Ok tt, mkWorld (trace w) (log w ++ map (fun x => (ERROR, f x)) xs)).
Proof.
  revert w. induction xs as [|x xs IH]; intros w.
  - cbn. rewrite app_nil_r. now destruct w.
  - cbn [for_each map]. unfold bind, logger. rewrite IH. cbn [trace log].
    now rewrite <- app_assoc.
Qed.

(** The failure branch of lines 121-126. *)
Lemma finish_failed s w :
  failed_tiles s <> [] ->
  finish s w =
  (Ok None,
   mkWorld (trace w)
     (log w ++
      [(ERROR, MsgDownloadFailed (len (failed_tiles s)) TOTAL_TILES);
       (ERROR, MsgNotSaved)] ++
      map (fun iu => (ERROR, MsgMissing (fst iu) (snd iu)))
          (enumerate (failed_tiles s) 1))).
Proof.
  intros Hne. unfold finish. destruct (failed_tiles s) as [|u us] eqn:Hf;
    [congruence|].
  unfold bind at 1. cbn [logger]. unfold bind at 1. cbn [logger trace log].
  unfold bind at 1. rewrite log_each. cbn [trace log ret].
  now rewrite <- !app_assoc.
Qed.

(** The success branch of lines 128-137. *)
Lemma finish_complete s w :
  failed_tiles s = [] ->
  exists l,
    finish s w =
    (match upscale_raises (merged_image s) with
     | Some e => Raise e
     | None => Ok (Some (upscaled (merged_image s)))
     end,
     mkWorld (trace w) (log w ++ l)).
Proof.
  intros Hnil. unfold finish, upscale_raises, upscaled, Image_resize.
  rewrite Hnil.
  destruct (SCALE_FACTOR >? 1);
    [destruct (resize_raises _ _ _)|];
    unfold bind, logger, ret, raise; cbn;
    eexists; rewrite <- !app_assoc; reflexivity.
Qed.

Lemma path_join_truthy a c rest :
  truthy (Some (path_join a (String c rest))) = true.
Proof.
  unfold truthy, path_join.
  destruct (String.prefix "/" (String c rest)); [reflexivity|].
  destruct ((a =? "")%string || endswith_sep a); destruct a; reflexivity.
Qed.

(** [save_image] raises nothing.  It returns a path, not empty, exactly
    when the file system accepted the final write; otherwise it returns
    [None] and no write was accepted. *)
Lemma save_image_run image output_dir w :
  exists r w' l,
    save_image image output_dir w = (Ok r, w') /\
    log w' = log w ++ l /\
    ((truthy r = true /\
      exists t path,
        trace w' = t ++ [EvSave path image] /\
        fs_save t path image = None) \/
     (r = None /\
      forall t path img,
        trace w' = t ++ [EvSave path img] -> fs_save t path img <> None)).
Proof.
  unfold save_image, try_except.
  unfold bind at 1. unfold os_makedirs at 1.
  destruct (fs_makedirs (trace w) output_dir) as [e|] eqn:Hmk1.
  { do 3 eexists. split; [reflexivity|]. cbn [log trace].
    split; [reflexivity|]. right. split; [reflexivity|].
    intros t path img Heq. apply app_inj_tail in Heq.
    destruct Heq as [_ Heq]. discriminate. }
  unfold bind at 1. cbn [now_strftime trace log].
  unfold bind at 1. unfold os_makedirs at 1. cbn [trace log].
  match goal with
  | |- context [fs_makedirs ?t ?p] => destruct (fs_makedirs t p) as [e|]
  end.
  { do 3 eexists. split; [reflexivity|]. cbn [log trace].
    split; [reflexivity|]. right. split; [reflexivity|].
    intros t path img Heq. apply app_inj_tail in Heq.
    destruct Heq as [_ Heq]. discriminate. }
  unfold bind at 1. cbn [now_strftime trace log].
  unfold bind at 1. unfold Image_save at 1. cbn [trace log].
  match goal with
  | |- context [fs_save ?t ?p image] =>
      destruct (fs_save t p image) as [e|] eqn:Hsave
  end.
  { do 3 eexists. split; [reflexivity|]. cbn [log trace].
    split; [reflexivity|]. right. split; [reflexivity|].
    intros t path img Heq. apply app_inj_tail in Heq.
    destruct Heq as [<- [= <- <-]]. intros Hnone.
    pose proof (eq_trans (eq_sym Hsave) Hnone) as Hboth. discriminate Hboth. }
  do 3 eexists. split; [reflexivity|]. cbn [log trace].
  split; [reflexivity|]. left. split.
  - apply path_join_truthy.
  - do 2 eexists. split; [reflexivity|]. exact Hsave.
Qed.

Lemma create_merged_image_run w :
  rectangular ->
  exists l,
    create_merged_image w =
    (match failed_urls (fst (fetch_cells cells (trace w))) with
     | [] =>
         match upscale_raises
                 (pasted (fst (fetch_cells cells (trace w))) blank_canvas)
         with
         | Some e => Raise e
         | None =>
             Ok (Some (upscaled
                         (pasted (fst (fetch_cells cells (trace w)))
                                 blank_canvas)))
         end
     | _ :: _ => Ok None
     end,
     mkWorld (snd (fetch_cells cells (trace w))) (log w ++ l)).
Proof.
  intros Hrect. unfold create_merged_image, bind.
  destruct (tile_loop_run w Hrect) as [l0 ->].
  destruct (failed_urls (fst (fetch_cells cells (trace w)))) as [|u us] eqn:Hf.
  - match goal with
    | |- context [finish ?s ?w1] =>
        destruct (finish_complete s w1 eq_refl) as [l ->]
    end.
    cbn [trace log merged_image]. eexists. rewrite <- app_assoc. reflexivity.
  - rewrite finish_failed by (cbn; discriminate).
    cbn [trace log]. eexists. rewrite <- app_assoc. reflexivity.
Qed.

Lemma blocks_disjoint row col row' col' i j :
  in_block row col i j -> in_block row' col' i j ->
  row' = row /\ col' = col.
Proof.
  unfold in_block. intros [Hc Hr] [Hc' Hr'].
  assert (HT : 0 < TILE_SIZE) by lia.
  split.
  - destruct (Z.lt_trichotomy row' row) as [Hlt | [Heq | Hgt]];
      [exfalso | exact Heq | exfalso]; nia.
  - destruct (Z.lt_trichotomy col' col) as [Hlt | [Heq | Hgt]];
      [exfalso | exact Heq | exfalso]; nia.
Qed.

Lemma in_box_block row col canvas i j :
  in_box (col * TILE_SIZE, row * TILE_SIZE) (TILE_SIZE, TILE_SIZE) canvas i j
    = true <->
  in_block row col i j /\
  0 <= i < fst canvas /\ 0 <= j < snd canvas.
Proof.
  unfold in_box, in_block. cbn [fst snd].
  rewrite !andb_true_iff, !Z.leb_le, !Z.ltb_lt. lia.
Qed.

(** C5 (tile normalization and placement).  A fetched tile is never
    turned away: whatever its size and mode, the iteration succeeds and
    counts it.  The tile pasted is the fetched one, resized with LANCZOS to
    [TILE_SIZE x TILE_SIZE] when its size differs and converted to RGBA
    when its mode differs; it is pasted at [(col * TILE_SIZE,
    row * TILE_SIZE)] with itself as the mask.  The paste writes the block
    of the cell and leaves every other pixel as it was, and the blocks of
    two distinct cells share no pixel. *)
Theorem loop_body_places_tile row col s w tile :
  rectangular ->
  0 <= row < GRID_ROWS -> 0 <= col < GRID_COLS ->
  fst (fetch (url_at row col) (trace w)) = Some tile ->
  exists placed canvas w',
    loop_body row col s w =
      (Ok (mkLocals canvas (failed_tiles s) (successful_tiles s + 1)), w') /\
    placed =
      (let sized :=
         if size_eqb (size tile) (TILE_SIZE, TILE_SIZE) then tile
         else resize tile (TILE_SIZE, TILE_SIZE) LANCZOS in
       if (mode sized =? "RGBA")%string then sized
       else convert sized "RGBA") /\
    size placed = (TILE_SIZE, TILE_SIZE) /\
    mode placed = "RGBA"%string /\
    canvas = paste (merged_image s) placed
                   (col * TILE_SIZE, row * TILE_SIZE) placed /\
    (forall i j,
       in_block row col i j ->
       0 <= i < fst (size (merged_image s)) ->
       0 <= j < snd (size (merged_image s)) ->
       px canvas i j =
       blend (px (merged_image s) i j)
             (px placed (i - col * TILE_SIZE) (j - row * TILE_SIZE))
             (px placed (i - col * TILE_SIZE) (j - row * TILE_SIZE))) /\
    (forall i j,
       ~ in_block row col i j -> px canvas i j = px (merged_image s) i j) /\
    (forall row' col' i j,
       in_block row col i j -> in_block row' col' i j ->
       row' = row /\ col' = col).
Proof.
  intros Hrect Hrow Hcol Htile.
  destruct (loop_body_run row col s w Hrect Hrow Hcol) as [l Hrun].
  rewrite Htile in Hrun. cbn [after_body] in Hrun.
  exists (normalized tile). do 2 eexists.
  split; [exact Hrun|]. split; [reflexivity|].
  split; [apply normalized_size|]. split; [apply normalized_mode|].
  split; [reflexivity|]. split; [|split].
  - intros i j Hblock Hi Hj. cbn [paste px].
    rewrite normalized_size.
    replace (in_box _ _ _ i j) with true; [reflexivity|].
    symmetry. apply in_box_block. auto.
  - intros i j Hout. cbn [paste px].
    rewrite normalized_size.
    destruct (in_box _ _ _ i j) eqn:Hbox; [|reflexivity].
    apply in_box_block in Hbox. destruct Hbox as [Hblock _].
    now destruct Hout.
  - intros row' col' i j. apply blocks_disjoint.
Qed.

(** C4 (no early abort, complete failure list).  An iteration whose fetch
    fails appends the URL of its cell to [failed_tiles], leaves the canvas
    and the counter alone, and returns normally, so the loop goes on.  The
    whole loop fetches every cell of the grid, row after row, whatever
    failed before, and ends with [failed_tiles] holding exactly the URLs of
    the cells whose fetch returned [None]; the canvas holds the fetched
    tiles only. *)
Theorem tile_loop_failure_list w :
  rectangular ->
  exists s w',
    tile_loop w = (Ok s, w') /\
    trace w' = snd (fetch_cells cells (trace w)) /\
    map c_url (fst (fetch_cells cells (trace w))) = List.concat TILE_URLS /\
    failed_tiles s = failed_urls (fst (fetch_cells cells (trace w))) /\
    (forall u,
       In u (failed_tiles s) <->
       exists c,
         In c (fst (fetch_cells cells (trace w))) /\
         c_tile c = None /\ c_url c = u) /\
    merged_image s =
      pasted (fetched (fst (fetch_cells cells (trace w)))) blank_canvas /\
    (forall row col s0 w0,
       0 <= row < GRID_ROWS -> 0 <= col < GRID_COLS ->
       fst (fetch (url_at row col) (trace w0)) = None ->
       exists w1,
         loop_body row col s0 w0 =
           (Ok (mkLocals (merged_image s0)
                         (failed_tiles s0 ++ [url_at row col])
                         (successful_tiles s0)), w1) /\
         trace w1 = snd (fetch (url_at row col) (trace w0))).
Proof.
  intros Hrect. destruct (tile_loop_run w Hrect) as [l Hrun].
  do 2 eexists. split; [exact Hrun|]. cbn [trace failed_tiles merged_image].
  split; [reflexivity|].
  split; [rewrite fetch_cells_urls; now apply urls_of_cells|].
  split; [reflexivity|]. split; [|split].
  - intros u. unfold failed_urls. rewrite in_flat_map.
    split; intros (c & Hc & Hu); exists c.
    + destruct (c_tile c); [destruct Hu|].
      destruct Hu as [<-|[]]. auto.
    + destruct Hu as [-> <-]. split; [exact Hc | now left].
  - generalize blank_canvas.
    generalize (fst (fetch_cells cells (trace w))) as out.
    unfold pasted, fetched.
    induction out as [|c out IH]; intros canvas; [reflexivity|].
    cbn [filter fold_left]. destruct (c_tile c) eqn:Hc.
    + cbn [fold_left]. rewrite Hc. apply IH.
    + apply IH.
  - intros row col s0 w0 Hrow Hcol Hnone.
    destruct (loop_body_run row col s0 w0 Hrect Hrow Hcol) as [l0 H0].
    rewrite Hnone in H0. cbn [after_body] in H0.
    eexists. split; [exact H0|]. reflexivity.
Qed.

(** C10 (every cell is counted once).  Each iteration either adds one to
    [successful_tiles] or appends the URL of its cell to [failed_tiles],
    never both and never neither; after the loop
    [successful_tiles + len(failed_tiles)] is [GRID_ROWS * GRID_COLS], and
    [failed_tiles] lists the failed URLs in the order of the grid, row
    after row. *)
Theorem tile_loop_counts w :
  rectangular ->
  exists s w',
    tile_loop w = (Ok s, w') /\
    successful_tiles s + len (failed_tiles s) = GRID_ROWS * GRID_COLS /\
    map c_url (fst (fetch_cells cells (trace w))) = List.concat TILE_URLS /\
    failed_tiles s = failed_urls (fst (fetch_cells cells (trace w))) /\
    (forall row col s0 w0,
       0 <= row < GRID_ROWS -> 0 <= col < GRID_COLS ->
       exists s1 w1,
         loop_body row col s0 w0 = (Ok s1, w1) /\
         ((successful_tiles s1 = successful_tiles s0 + 1 /\
           failed_tiles s1 = failed_tiles s0) \/
          (successful_tiles s1 = successful_tiles s0 /\
           failed_tiles s1 = failed_tiles s0 ++ [url_at row col]))).
Proof.
  intros Hrect. destruct (tile_loop_run w Hrect) as [l Hrun].
  do 2 eexists. split; [exact Hrun|].
  cbn [successful_tiles failed_tiles]. split; [|split; [|split]].
  - rewrite fetched_or_failed, <- length_cells. unfold len.
    rewrite <- (length_map c_url), fetch_cells_urls, length_map.
    reflexivity.
  - rewrite fetch_cells_urls. now apply urls_of_cells.
  - reflexivity.
  - intros row col s0 w0 Hrow Hcol.
    destruct (loop_body_run row col s0 w0 Hrect Hrow Hcol) as [l0 H0].
    do 2 eexists. split; [exact H0|].
    destruct (fst (fetch (url_at row col) (trace w0))); cbn; auto.
Qed.

(** [main], call by call. *)
Lemma main_run w :
  main w =
  match create_merged_image (after_banner w) with
  | (Ok (Some image), w1) =>
      match save_image image "output" (before_save w1) with
      | (Ok saved_path, w2) =>
          if truthy saved_path
          then (Ok true,
                mkWorld (trace w2)
                  ((log w2 ++ [(INFO, MsgCompleted)]) ++
                   [(INFO, MsgStoredAt match saved_path with
                                       | Some p => p
                                       | None => ""%string
                                       end)]))
          else (Ok false,
                mkWorld (trace w2) (log w2 ++ [(ERROR, MsgSaveFailed)]))
      | (Raise e, w2) => (Raise e, w2)
      end
  | (Ok None, w1) =>
      (Ok false, mkWorld (trace w1) (log w1 ++ [(ERROR, MsgMergeFailed)]))
  | (Raise e, w1) => (Raise e, w1)
  end.
Proof.
  unfold main. unfold bind at 1. cbn [logger].
  unfold bind at 1. cbn [logger trace log].
  unfold bind at 1. cbn [logger trace log].
  unfold bind at 1. fold (after_banner w).
  destruct (create_merged_image (after_banner w)) as [[[image|]|e] w1];
    [|reflexivity|reflexivity].
  unfold bind at 1. cbn [logger]. fold (before_save w1).
  unfold bind at 1.
  destruct (save_image image "output" (before_save w1)) as [[p|e] w2];
    [|reflexivity].
  destruct (truthy p); reflexivity.
Qed.


(** The upscale is in no [try]: on a grid whose every fetch succeeded,
    what the resize of line 133 raises leaves [create_merged_image], then
    [main], and ends the script with a traceback; nothing is saved. *)
Lemma upscale_raise_propagates w e :
  rectangular ->
  Forall (fun c => c_tile c <> None) (fst (fetch_cells cells (trace w))) ->
  upscale_raises (pasted (fst (fetch_cells cells (trace w))) blank_canvas)
    = Some e ->
  fst (create_merged_image w) = Raise e /\
  fst (main w) = Raise e /\
  fst (script w) = Traceback e /\
  fs_events (trace (snd (script w))) = fs_events (trace w).
Proof.
  intros Hrect Hall Hraise. apply failed_urls_nil in Hall.
  destruct (create_merged_image_run w Hrect) as [l Hrun].
  destruct (create_merged_image_run (after_banner w) Hrect) as [lm Hmain].
  cbn [after_banner trace] in Hmain.
  rewrite Hall, Hraise in Hrun, Hmain.
  unfold script. rewrite main_run, Hmain, Hrun. cbn [fst snd trace].
  repeat split. apply fetch_cells_fs_events.
Qed.

(** C9 (a scale factor of at most 1 is no scaling).  For every
    [SCALE_FACTOR <= 1], zero and the negatives included,
    [create_merged_image] raises nothing, and the image it returns, if
    any, is the canvas itself, at [(cols * TILE_SIZE, rows * TILE_SIZE)]:
    it is returned whenever every fetch succeeded, never resized. *)
Theorem create_merged_image_unscaled w :
  rectangular ->
  SCALE_FACTOR <= 1 ->
  exists r w',
    create_merged_image w = (Ok r, w') /\
    (Forall (fun c => c_tile c <> None) (fst (fetch_cells cells (trace w))) ->
     r = Some (pasted (fst (fetch_cells cells (trace w))) blank_canvas)) /\
    (forall image,
       r = Some image ->
       image = pasted (fst (fetch_cells cells (trace w))) blank_canvas /\
       size image = (GRID_COLS * TILE_SIZE, GRID_ROWS * TILE_SIZE)).
Proof.
  intros Hrect Hscale.
  destruct (create_merged_image_run w Hrect) as [l Hrun].
  unfold upscale_raises, upscaled in Hrun.
  replace (SCALE_FACTOR >? 1) with false in Hrun
    by (symmetry; rewrite Z.gtb_ltb; apply Z.ltb_ge; lia).
  destruct (failed_urls (fst (fetch_cells cells (trace w)))) eqn:Hf;
    do 2 eexists; (split; [exact Hrun|]); split.
  - reflexivity.
  - intros image [= <-]. split; [reflexivity|].
    rewrite pasted_size. cbn [size blank_canvas Image_new].
    unfold ORIGINAL_WIDTH, ORIGINAL_HEIGHT. f_equal; ring.
  - intros Hall. apply failed_urls_nil in Hall. congruence.
  - discriminate.
Qed.

(** C1, as the script has it (all-or-nothing assembly).  Once every cell
    has been attempted, a non-empty failure list makes
    [create_merged_image] return [None]: the canvas is dropped, [main]
    returns [False] without calling [save_image], and the run makes no
    directory and writes no file.  [None] holds no list: the failed URLs,
    all of them and in order, go to the logger, one ERROR record each.  An
    image is returned only if every fetch succeeded, and nothing is raised
    unless every fetch succeeded and the upscale of line 133 raised it. *)
Theorem create_merged_image_all_or_nothing w :
  rectangular ->
  exists r w1 success w2,
    create_merged_image w = (r, w1) /\
    main w = (success, w2) /\
    (r = Ok None <-> failed_urls (fst (fetch_cells cells (trace w))) <> []) /\
    (failed_urls (fst (fetch_cells cells (trace w))) <> [] ->
     success = Ok false /\
     trace w1 = snd (fetch_cells cells (trace w)) /\
     trace w2 = snd (fetch_cells cells (trace w)) /\
     fs_events (trace w2) = fs_events (trace w) /\
     exists l,
       log w1 =
       log w ++ l ++
       map (fun iu => (ERROR, MsgMissing (fst iu) (snd iu)))
           (enumerate (failed_urls (fst (fetch_cells cells (trace w)))) 1)) /\
    (forall image,
       r = Ok (Some image) ->
       Forall (fun c => c_tile c <> None)
              (fst (fetch_cells cells (trace w)))) /\
    (forall e,
       r = Raise e ->
       Forall (fun c => c_tile c <> None)
              (fst (fetch_cells cells (trace w))) /\
       1 < SCALE_FACTOR /\
       resize_raises
         (pasted (fst (fetch_cells cells (trace w))) blank_canvas)
         (FINAL_WIDTH, FINAL_HEIGHT) NEAREST = Some e).
Proof.
  intros Hrect.
  destruct (create_merged_image_run (after_banner w) Hrect) as [lm Hmain].
  cbn [after_banner trace] in Hmain.
  pose proof (main_run w) as Hm. rewrite Hmain in Hm.
  destruct (create_merged_image_run w Hrect) as [l Hrun]. rewrite Hrun.
  do 2 eexists. exists (fst (main w)), (snd (main w)).
  split; [reflexivity|]. split; [apply surjective_pairing|].
  destruct (failed_urls (fst (fetch_cells cells (trace w))))
    as [|u us] eqn:Hf.
  - assert (Hall : Forall (fun c => c_tile c <> None)
                          (fst (fetch_cells cells (trace w))))
      by now apply failed_urls_nil.
    unfold upscale_raises in *.
    destruct (SCALE_FACTOR >? 1) eqn:Hgt.
    + rewrite Z.gtb_ltb in Hgt. apply Z.ltb_lt in Hgt.
      destruct (resize_raises _ _ _) as [e|] eqn:Hres.
      * split; [split; [discriminate | congruence]|].
        split; [congruence|]. split; [discriminate|].
        intros e' [= <-]. auto.
      * split; [split; [discriminate | congruence]|].
        split; [congruence|]. split; [auto | discriminate].
    + split; [split; [discriminate | congruence]|].
      split; [congruence|]. split; [auto | discriminate].
  - rewrite Hm. cbn [fst snd trace log].
    split; [split; [discriminate | reflexivity]|].
    split; [|split; discriminate].
    intros _.
    split; [reflexivity|]. split; [reflexivity|]. split; [reflexivity|].
    split; [apply fetch_cells_fs_events|].
    unfold create_merged_image, bind in Hrun.
    destruct (tile_loop_run w Hrect) as [l0 Hloop]. rewrite Hloop in Hrun.
    rewrite finish_failed in Hrun
      by (cbn [failed_tiles]; rewrite Hf; discriminate).
    cbn [trace log failed_tiles] in Hrun. rewrite Hf in Hrun.
    injection Hrun as Hlog.
    match type of Hlog with
    | (_ ++ ?l0) ++ ?a :: ?b :: _ = _ => exists (l0 ++ [a; b])
    end.
    rewrite <- Hlog, <- !app_assoc. reflexivity.
Qed.

(** X14 (the exit status when the upscale returns).  On a rectangular
    grid, and with an upscale the library does not refuse, the script ends with
    status 0 or 1, never with a traceback: 1 when [create_merged_image]
    returns [None], 1 when [save_image] returns [None], 0 when it returns
    a path.  Status 0 means exactly that every tile was fetched and that
    the last thing the run did is a file write the file system accepted. *)
Theorem script_exit_code w :
  rectangular ->
  upscale_raises
    (pasted (fst (fetch_cells cells (trace w))) blank_canvas) = None ->
  exists code w' r w1,
    script w = (ExitCode code, w') /\
    create_merged_image (after_banner w) = (Ok r, w1) /\
    match r with
    | None => code = 1
    | Some image =>
        exists saved_path w2,
          save_image image "output" (before_save w1) = (Ok saved_path, w2) /\
          code = match saved_path with Some _ => 0 | None => 1 end
    end /\
    (code = 0 \/ code = 1) /\
    (code = 0 <->
     Forall (fun c => c_tile c <> None)
            (fst (fetch_cells cells (trace w))) /\
     exists t path image,
       trace w' = t ++ [EvSave path image] /\
       fs_save t path image = None).
Proof.
  intros Hrect Hresize.
  destruct (create_merged_image_run (after_banner w) Hrect) as [lm Hmain].
  cbn [after_banner trace] in Hmain. fold (after_banner w) in Hmain.
  rewrite Hresize in Hmain.
  unfold script. rewrite main_run, Hmain.
  destruct (failed_urls (fst (fetch_cells cells (trace w))))
    as [|u us] eqn:Hf.
  - assert (Hall : Forall (fun c => c_tile c <> None)
                          (fst (fetch_cells cells (trace w))))
      by now apply failed_urls_nil.
    match goal with
    | |- context [save_image ?image ?dir ?w1] =>
        destruct (save_image_run image dir w1)
          as (p & w2 & ls & Hsave & _ & Hcases);
        rewrite Hsave
    end.
    destruct Hcases as [[Htruthy (t & path & Ht & Hfs)] | [-> Hnot]].
    + rewrite Htruthy. destruct p as [p|]; [|discriminate].
      do 4 eexists. split; [reflexivity|]. split; [reflexivity|].
      split; [do 2 eexists; split; [exact Hsave | reflexivity]|].
      split; [now left|]. split; [|reflexivity].
      intros _. split; [exact Hall|]. cbn [trace]. eauto.
    + cbn [truthy].
      do 4 eexists. split; [reflexivity|]. split; [reflexivity|].
      split; [do 2 eexists; split; [exact Hsave | reflexivity]|].
      split; [now right|]. split; [discriminate|].
      intros [_ (t & path & image & Ht & Hfs)]. cbn [trace] in Ht.
      exfalso. exact (Hnot t path image Ht Hfs).
  - do 4 eexists. split; [reflexivity|]. split; [reflexivity|].
    split; [reflexivity|]. split; [now right|].
    split; [discriminate|]. intros [Hnil _].
    apply failed_urls_nil in Hnil. congruence.
Qed.

(** ** Further properties of the fetcher *)

(** X1 (no attempt at all).  With [retries <= 0] the loop body never
    runs: [download_image] sends no request, does not sleep, returns
    [None], and its only record reports [None] as the last error. *)
Theorem download_image_no_attempts url timeout n b w :
  n <= 0 ->
  download_image url timeout n b w =
  (Ok None,
   mkWorld (trace w) (log w ++ [(ERROR, MsgGaveUp url n None)])).
Proof.
  intros Hn. unfold download_image. rewrite range_empty by lia. reflexivity.
Qed.




(** What [fetch] adds to the history: the schedule of the failed attempts
    and the last request. *)
Lemma fetch_shape url t :
  exists k,
    1 <= k <= 5 /\
    snd (fetch url t) =
    t ++ backoff_schedule url 30 5 (Finite (3 # 2)) (range 1 k) ++
    [EvGet url 30].
Proof.
  unfold fetch, download_image.
  destruct (download_attempts_shape url 30 5 (Finite (3 # 2)) t 5%nat
              default_pauses 1 None [])
    as (r & t' & l & Hrun & Hshape); [lia | lia |].
  rewrite (range_empty 1 1) in Hrun by lia.
  cbn [backoff_schedule flat_map] in Hrun. rewrite app_nil_r in Hrun.
  rewrite Hrun. cbn [snd trace].
  destruct Hshape as [(_ & -> & _) | (k & image & Hk & _ & -> & _)].
  - exists 5. split; [lia|].
    rewrite (range_snoc 1 5) by lia. unfold backoff_schedule.
    rewrite flat_map_app. cbn [flat_map].
    now rewrite Z.ltb_irrefl, app_nil_r.
  - exists k. split; [lia|]. reflexivity.
Qed.

(** A served request is not repeated. *)
Lemma fetch_served url t image :
  fetch_once t url 30 = inr image ->
  fetch url t = (Some image, t ++ [EvGet url 30]).
Proof.
  intros Hok. unfold fetch, download_image.
  rewrite (range_cons 1 (5 + 1)) by lia.
  now rewrite (download_attempts_succeeded url 30 5 (Finite (3 # 2)) 1 _
                 None image (mkWorld t []) Hok).
Qed.

(** A URL that never answers is given up. *)
Lemma fetch_failed url t :
  (forall t', exists e, fetch_once t' url 30 = inl e) ->
  fst (fetch url t) = None.
Proof.
  intros Hfail. unfold fetch, download_image.
  destruct (download_attempts_exhausted url 30 5 (Finite (3 # 2)) Hfail
              (range 1 (5 + 1)))
    with (last_error := @None Exn) (w := mkWorld t [])
    as (l & last & -> & _).
  { intros k Hk Hlt. apply in_range in Hk. apply default_pauses. lia. }
  reflexivity.
Qed.

(** ** Further properties of [save_image] *)

(** The four ways [save_image] can go: the first [makedirs] refused, the
    second refused, the write refused, the write accepted. *)
Lemma save_image_trace image output_dir w :
  let t1 := trace w ++ [EvMakedirs output_dir] in
  let folder := path_join output_dir (clock t1 "%Y%m%d") in
  let t3 := (t1 ++ [EvNow]) ++ [EvMakedirs folder] in
  let path :=
    path_join folder
      ("merged_tiles_" ++ clock t3 "%Y%m%d_%H%M%S" ++ ".png")%string in
  exists r w' l,
    save_image image output_dir w = (Ok r, w') /\
    log w' = log w ++ l /\
    ((r = None /\ trace w' = t1 /\
      fs_makedirs (trace w) output_dir <> None) \/
     (r = None /\ trace w' = t3 /\
      fs_makedirs (trace w) output_dir = None /\
      fs_makedirs (t1 ++ [EvNow]) folder <> None) \/
     (r = None /\ trace w' = (t3 ++ [EvNow]) ++ [EvSave path image] /\
      fs_makedirs (trace w) output_dir = None /\
      fs_makedirs (t1 ++ [EvNow]) folder = None /\
      fs_save (t3 ++ [EvNow]) path image <> None) \/
     (r = Some path /\ trace w' = (t3 ++ [EvNow]) ++ [EvSave path image] /\
      fs_makedirs (trace w) output_dir = None /\
      fs_makedirs (t1 ++ [EvNow]) folder = None /\
      fs_save (t3 ++ [EvNow]) path image = None)).
Proof.
  intros t1 folder t3 path.
  unfold save_image, try_except.
  unfold bind at 1. unfold os_makedirs at 1. fold t1.
  destruct (fs_makedirs (trace w) output_dir) as [e|] eqn:Hmk1.
  { do 3 eexists. split; [reflexivity|]. cbn [log trace].
    split; [reflexivity|]. left. repeat split. discriminate. }
  unfold bind at 1. cbn [now_strftime trace log].
  unfold bind at 1. unfold os_makedirs at 1. cbn [trace log].
  fold folder. fold t3.
  destruct (fs_makedirs (t1 ++ [EvNow]) folder) as [e|] eqn:Hmk2.
  { do 3 eexists. split; [reflexivity|]. cbn [log trace].
    split; [reflexivity|]. right. left. repeat split. discriminate. }
  unfold bind at 1. cbn [now_strftime trace log].
  unfold bind at 1. unfold Image_save at 1. cbn [trace log].
  change (path_join folder
            ("merged_tiles_" ++ clock t3 "%Y%m%d_%H%M%S" ++ ".png")%string)
    with path.
  destruct (fs_save (t3 ++ [EvNow]) path image) as [e|] eqn:Hsave.
  { do 3 eexists. split; [reflexivity|]. cbn [log trace].
    split; [reflexivity|]. right. right. left. repeat split. discriminate. }
  do 3 eexists. split; [reflexivity|]. cbn [log trace].
  split; [reflexivity|]. right. right. right. repeat split.
Qed.

(** X3 ([save_image] contains every failure and writes once).  Whatever
    the file system answers, [save_image] raises nothing.  It stops at the
    first refusal: what it did is [makedirs(output_dir)] alone, or that,
    the date folder's [makedirs] and nothing after, or the whole sequence
    ending in one write of [image].  So a write is attempted only after
    both directories were accepted, never twice, and a path is returned
    exactly when the write was accepted; every other outcome is [None]. *)
Theorem save_image_writes_once image output_dir w :
  let t1 := trace w ++ [EvMakedirs output_dir] in
  let folder := path_join output_dir (clock t1 "%Y%m%d") in
  let t3 := (t1 ++ [EvNow]) ++ [EvMakedirs folder] in
  let path :=
    path_join folder
      ("merged_tiles_" ++ clock t3 "%Y%m%d_%H%M%S" ++ ".png")%string in
  let whole :=
    [EvMakedirs output_dir; EvNow; EvMakedirs folder; EvNow;
     EvSave path image] in
  exists r w' done,
    save_image image output_dir w = (Ok r, w') /\
    trace w' = trace w ++ done /\
    (done = [EvMakedirs output_dir] \/
     done = [EvMakedirs output_dir; EvNow; EvMakedirs folder] \/
     done = whole) /\
    saves done = (if Nat.eqb (List.length done) 5 then [(path, image)]
                  else []) /\
    (done = whole ->
     fs_makedirs (trace w) output_dir = None /\
     fs_makedirs (t1 ++ [EvNow]) folder = None) /\
    (r = Some path \/ r = None) /\
    (r = Some path <->
     done = whole /\ fs_save (t3 ++ [EvNow]) path image = None).
Proof.
  intros t1 folder t3 path whole.
  destruct (save_image_trace image output_dir w)
    as (r & w' & l & Hrun & _ & Hcases).
  fold t1 folder t3 path in Hcases.
  destruct Hcases
    as [(-> & Ht & H1) | [(-> & Ht & H1 & H2) | [(-> & Ht & H1 & H2 & H3)
       | (-> & Ht & H1 & H2 & H3)]]].
  - exists None, w', [EvMakedirs output_dir].
    split; [exact Hrun|]. split; [exact Ht|]. split; [now left|].
    split; [reflexivity|]. split; [discriminate|]. split; [now right|].
    split; [discriminate | intros [[=] _]].
  - exists None, w', [EvMakedirs output_dir; EvNow; EvMakedirs folder].
    split; [exact Hrun|].
    split; [rewrite Ht; unfold t3, t1; now rewrite <- !app_assoc|].
    split; [right; now left|]. split; [reflexivity|].
    split; [discriminate|]. split; [now right|].
    split; [discriminate | intros [[=] _]].
  - exists None, w', whole. split; [exact Hrun|].
    split; [rewrite Ht; unfold t3, t1; now rewrite <- !app_assoc|].
    split; [right; now right|]. split; [reflexivity|].
    split; [auto|]. split; [now right|].
    split; [discriminate | intros [_ Hs]; contradiction].
  - exists (Some path), w', whole. split; [exact Hrun|].
    split; [rewrite Ht; unfold t3, t1; now rewrite <- !app_assoc|].
    split; [right; now right|]. split; [reflexivity|].
    split; [auto|]. split; [now left|]. split; auto.
Qed.

Lemma endswith_sep_app a b :
  b <> ""%string -> endswith_sep (a ++ b) = endswith_sep b.
Proof.
  intros Hb. induction a as [|c a IH]; [reflexivity|].
  cbn [String.append endswith_sep].
  destruct (a ++ b)%string as [|c' rest] eqn:Hab.
  - destruct a; [cbn in Hab; contradiction | discriminate].
  - exact IH.
Qed.

Lemma path_join_relative a b :
  a <> ""%string -> endswith_sep a = false -> String.prefix "/" b = false ->
  path_join a b = (a ++ "/" ++ b)%string.
Proof.
  intros Ha Hsep Hrel. unfold path_join. rewrite Hrel, Hsep.
  destruct a; [contradiction | reflexivity].
Qed.

(** X4 (where the file goes).  When [output_dir] is not empty and does
    not end in a slash, and the formatted date is not empty, does not start
    and does not end with a slash, the path [save_image] writes to and
    returns is [output_dir/<date>/merged_tiles_<timestamp>.png], and the
    folder it made just before is [output_dir/<date>]. *)
Theorem save_image_path_layout image output_dir w :
  let today := clock (trace w ++ [EvMakedirs output_dir]) "%Y%m%d" in
  let folder := (output_dir ++ "/" ++ today)%string in
  let stamp :=
    clock (((trace w ++ [EvMakedirs output_dir]) ++ [EvNow]) ++
           [EvMakedirs folder]) "%Y%m%d_%H%M%S" in
  let path := (folder ++ "/merged_tiles_" ++ stamp ++ ".png")%string in
  output_dir <> ""%string ->
  endswith_sep output_dir = false ->
  today <> ""%string ->
  String.prefix "/" today = false ->
  endswith_sep today = false ->
  fs_makedirs (trace w) output_dir = None ->
  fs_makedirs ((trace w ++ [EvMakedirs output_dir]) ++ [EvNow]) folder
    = None ->
  exists r w',
    save_image image output_dir w = (Ok r, w') /\
    trace w' =
      trace w ++
      [EvMakedirs output_dir; EvNow; EvMakedirs folder; EvNow;
       EvSave path image] /\
    (r = Some path \/ r = None) /\
    (r = Some path <->
     fs_save (trace w ++
              [EvMakedirs output_dir; EvNow; EvMakedirs folder; EvNow])
       path image = None).
Proof.
  intros today folder stamp path Hdir Hdirsep Htoday Hrel Hsep Hmk1 Hmk2.
  assert (Hfolder : path_join output_dir today = folder)
    by now apply path_join_relative.
  assert (Hfsep : endswith_sep folder = false).
  { unfold folder.
    rewrite endswith_sep_app by (destruct today; [contradiction|discriminate]).
    change ("/" ++ today)%string with (String "/" today).
    destruct today; [contradiction | exact Hsep]. }
  assert (Hfne : folder <> ""%string)
    by (unfold folder; destruct output_dir; [contradiction | discriminate]).
  assert (Hpath :
    path_join folder ("merged_tiles_" ++ stamp ++ ".png")%string = path).
  { rewrite path_join_relative by (auto; reflexivity). reflexivity. }
  destruct (save_image_trace image output_dir w)
    as (r & w' & l & Hrun & _ & Hcases).
  fold today in Hcases. rewrite Hfolder in Hcases. fold stamp in Hcases.
  rewrite Hpath in Hcases.
  exists r, w'. split; [exact Hrun|].
  destruct Hcases
    as [(-> & Ht & H1) | [(-> & Ht & H1 & H2) | [(-> & Ht & H1 & H2 & H3)
       | (-> & Ht & H1 & H2 & H3)]]];
    try contradiction.
  - split; [rewrite Ht; now rewrite <- !app_assoc|].
    split; [now right|]. split; [discriminate|].
    intros Hs. exfalso. apply H3. rewrite <- Hs. f_equal.
    now rewrite <- !app_assoc.
  - split; [rewrite Ht; now rewrite <- !app_assoc|].
    split; [now left|]. split; [|reflexivity].
    intros _. rewrite <- H3. f_equal. now rewrite <- !app_assoc.
Qed.

(** ** Further properties of the assembler *)

Lemma schedule_fs_events url timeout retries b attempts :
  fs_events (backoff_schedule url timeout retries b attempts) = [].
Proof.
  unfold backoff_schedule, fs_events.
  induction attempts as [|k rest IH]; [reflexivity|].
  cbn [flat_map]. rewrite filter_app, IH.
  now destruct (k <? retries).
Qed.

(** One fetch: between one and five requests, all for its URL, a pause
    between two requests and none longer than six seconds. *)
Lemma fetch_budget url t :
  exists added,
    snd (fetch url t) = t ++ added /\
    Forall (fun g => g = (url, 30)) (gets added) /\
    1 <= len (gets added) <= 5 /\
    len (sleeps added) + 1 = len (gets added) /\
    Forall (fun s => (s <= 6)%Q) (sleeps added) /\
    fs_events added = [].
Proof.
  destruct (fetch_shape url t) as (k & Hk & ->).
  eexists. split; [reflexivity|].
  destruct (schedule_projections url 30 5 (Finite (3 # 2)) (range 1 k))
    as [Hg Hs].
  { intros j Hj. apply in_range in Hj. lia. }
  rewrite gets_app, sleeps_app, Hg, Hs. cbn [gets sleeps flat_map app].
  rewrite app_nil_r. unfold len.
  rewrite length_app, repeat_length, length_map, length_range.
  cbn [List.length].
  split; [|split; [lia | split; [lia | split]]].
  - apply Forall_app. split; [|repeat constructor].
    apply Forall_forall. intros g Hg'. now apply repeat_spec in Hg'.
  - apply Forall_forall. intros q Hq. apply in_map_iff in Hq.
    destruct Hq as (j & <- & Hj). apply in_range in Hj.
    destruct (default_pause j) as (q & Hq & Hle & _); [lia|].
    unfold pause_seconds. now rewrite Hq.
  - rewrite fs_events_app, schedule_fs_events. reflexivity.
Qed.

Lemma fetch_cells_budget cs t :
  exists added,
    snd (fetch_cells cs t) = t ++ added /\
    Forall (fun g =>
              In (fst g) (map (fun rc => url_at (fst rc) (snd rc)) cs) /\
              snd g = 30) (gets added) /\
    len cs <= len (gets added) <= 5 * len cs /\
    len (sleeps added) + len cs = len (gets added) /\
    Forall (fun s => (s <= 6)%Q) (sleeps added) /\
    fs_events added = [].
Proof.
  revert t. induction cs as [|[row col] rest IH]; intros t.
  - exists []. cbn. rewrite app_nil_r. repeat split; try constructor; lia.
  - cbn [fetch_cells].
    destruct (fetch_budget (url_at row col) t)
      as (a1 & Ht1 & Hg1 & Hn1 & Hs1 & Hq1 & Hf1).
    destruct (fetch (url_at row col) t) as [tile t1]. cbn [snd] in Ht1.
    subst t1.
    destruct (IH (t ++ a1)) as (a2 & Ht2 & Hg2 & Hn2 & Hs2 & Hq2 & Hf2).
    destruct (fetch_cells rest (t ++ a1)) as [out t2]. cbn [snd] in *.
    subst t2. exists (a1 ++ a2). split; [now rewrite app_assoc|].
    rewrite gets_app, sleeps_app, fs_events_app, Hf1, Hf2.
    unfold len in *. rewrite !length_app. cbn [List.length map fst snd].
    split; [|split; [lia | split; [lia | split; [|reflexivity]]]].
    + apply Forall_app. split.
      * eapply Forall_impl; [|exact Hg1]. intros g ->. cbn. auto.
      * eapply Forall_impl; [|exact Hg2]. intros g [Hin H30]. cbn. auto.
    + apply Forall_app. now split.
Qed.

(** X5 (what a run costs).  On a rectangular grid the double loop sends
    at least one and at most five requests per cell, only to URLs of the
    grid and always with a 30 second timeout; it pauses once between two
    requests for the same cell, never longer than six seconds, and it does
    not touch the file system. *)
Theorem tile_loop_request_budget w :
  rectangular ->
  exists s w' added,
    tile_loop w = (Ok s, w') /\
    trace w' = trace w ++ added /\
    Forall (fun g => In (fst g) (List.concat TILE_URLS) /\ snd g = 30)
           (gets added) /\
    TOTAL_TILES <= len (gets added) <= 5 * TOTAL_TILES /\
    len (sleeps added) + TOTAL_TILES = len (gets added) /\
    Forall (fun s => (s <= 6)%Q) (sleeps added) /\
    fs_events added = [].
Proof.
  intros Hrect. destruct (tile_loop_run w Hrect) as [l Hrun].
  destruct (fetch_cells_budget cells (trace w))
    as (added & Ht & Hg & Hn & Hs & Hq & Hf).
  rewrite urls_of_cells in Hg by exact Hrect.
  rewrite length_cells in Hn, Hs.
  do 2 eexists. exists added. split; [exact Hrun|]. cbn [trace].
  unfold TOTAL_TILES. auto 10.
Qed.

Lemma fetch_cells_served cs t :
  (forall t' rc, In rc cs ->
     exists image, fetch_once t' (url_at (fst rc) (snd rc)) 30 = inr image) ->
  snd (fetch_cells cs t) =
    t ++ map (fun rc => EvGet (url_at (fst rc) (snd rc)) 30) cs /\
  failed_urls (fst (fetch_cells cs t)) = [].
Proof.
  revert t. induction cs as [|[row col] rest IH]; intros t Hok.
  - cbn. now rewrite app_nil_r.
  - cbn [fetch_cells].
    destruct (Hok t (row, col)) as [image Himage]; [now left|].
    cbn [fst snd] in Himage. rewrite (fetch_served _ _ _ Himage).
    destruct (IH (t ++ [EvGet (url_at row col) 30])) as [Ht Hf].
    { intros t' rc Hin. apply Hok. now right. }
    destruct (fetch_cells rest (t ++ [EvGet (url_at row col) 30]))
      as [out t2].
    cbn [fst snd map] in *. subst t2. split.
    + now rewrite <- app_assoc.
    + unfold failed_urls in *. cbn [flat_map c_tile app]. exact Hf.
Qed.

(** X6 (a healthy server).  When every request for a URL of the grid is
    served with a tile that opens and loads, [create_merged_image] sends
    exactly one request per cell, in the order of the grid, row after row,
    and without a single pause; it then returns an image, unless the
    upscale of line 133 raises, and then that exception leaves the
    function. *)
Theorem create_merged_image_healthy w :
  rectangular ->
  (forall t u, In u (List.concat TILE_URLS) ->
     exists image, fetch_once t u 30 = inr image) ->
  exists r w',
    create_merged_image w = (r, w') /\
    trace w' = trace w ++ map (fun u => EvGet u 30) (List.concat TILE_URLS) /\
    match upscale_raises
            (pasted (fst (fetch_cells cells (trace w))) blank_canvas)
    with
    | None => exists image, r = Ok (Some image)
    | Some e => r = Raise e
    end.
Proof.
  intros Hrect Hok.
  destruct (create_merged_image_run w Hrect) as [l Hrun].
  destruct (fetch_cells_served cells (trace w)) as [Ht Hf].
  { intros t' rc Hin. apply Hok. rewrite <- urls_of_cells by exact Hrect.
    apply in_map_iff. now exists rc. }
  rewrite Hf, Ht in Hrun. do 2 eexists. split; [exact Hrun|].
  cbn [trace]. split.
  - f_equal. rewrite <- urls_of_cells by exact Hrect. now rewrite map_map.
  - destruct (upscale_raises _); [reflexivity | eauto].
Qed.

Lemma fetch_cells_tiles cs t :
  Forall (fun c => exists t', c_tile c = fst (fetch (c_url c) t'))
         (fst (fetch_cells cs t)).
Proof.
  revert t. induction cs as [|[row col] rest IH]; intros t; [constructor|].
  cbn [fetch_cells].
  destruct (fetch (url_at row col) t) as [tile t1] eqn:Hfetch.
  specialize (IH t1). destruct (fetch_cells rest t1) as [out t2].
  cbn [fst] in *. constructor; [|exact IH].
  exists t. cbn. now rewrite Hfetch.
Qed.

(** X7 (one dead URL fails the run).  On a rectangular grid, if some URL
    of the grid fails on every attempt, then whatever the other URLs do
    [create_merged_image] returns [None], that URL is in the failure list,
    the script ends with status 1, and the file system is not touched. *)
Theorem dead_url_fails_run w url :
  rectangular ->
  In url (List.concat TILE_URLS) ->
  (forall t, exists e, fetch_once t url 30 = inl e) ->
  exists w1 w2,
    create_merged_image w = (Ok None, w1) /\
    In url (failed_urls (fst (fetch_cells cells (trace w)))) /\
    script w = (ExitCode 1, w2) /\
    fs_events (trace w2) = fs_events (trace w).
Proof.
  intros Hrect Hin Hdead.
  assert (Hfailed : In url (failed_urls (fst (fetch_cells cells (trace w))))).
  { rewrite <- urls_of_cells, <- (fetch_cells_urls cells (trace w)) in Hin
      by exact Hrect.
    apply in_map_iff in Hin. destruct Hin as (c & <- & Hc).
    pose proof (fetch_cells_tiles cells (trace w)) as Htiles.
    rewrite Forall_forall in Htiles. destruct (Htiles c Hc) as [t' Ht'].
    rewrite (fetch_failed _ t' Hdead) in Ht'.
    unfold failed_urls. apply in_flat_map. exists c.
    split; [exact Hc|]. rewrite Ht'. now left. }
  destruct (create_merged_image_run w Hrect) as [l Hrun].
  destruct (create_merged_image_run (after_banner w) Hrect) as [lm Hmain].
  cbn [after_banner trace] in Hmain. fold (after_banner w) in Hmain.
  unfold script. rewrite main_run, Hmain.
  destruct (failed_urls (fst (fetch_cells cells (trace w)))) as [|u us];
    [destruct Hfailed|].
  do 2 eexists. split; [exact Hrun|]. split; [exact Hfailed|].
  split; [reflexivity|]. cbn [trace]. apply fetch_cells_fs_events.
Qed.

Lemma NoDup_range lo hi : NoDup (range lo hi).
Proof.
  unfold range. apply NoDup_map_NoDup_ForallPairs; [|apply seq_NoDup].
  intros x y _ _ H. lia.
Qed.

Lemma NoDup_cells : NoDup cells.
Proof.
  unfold cells. generalize (NoDup_range 0 GRID_ROWS).
  generalize (range 0 GRID_ROWS) as rows.
  induction rows as [|r rows IH]; intros Hnd; [constructor|].
  inversion Hnd as [|? ? Hr Hrows]; subst. cbn [flat_map].
  apply NoDup_app.
  - apply NoDup_map_NoDup_ForallPairs; [|apply NoDup_range].
    intros x y _ _ [= ->]. reflexivity.
  - now apply IH.
  - intros [r' c'] Hin Hin'. apply in_map_iff in Hin.
    destruct Hin as (c & [= <- <-] & _).
    apply in_flat_map in Hin'. destruct Hin' as (r' & Hr' & Hin').
    apply in_map_iff in Hin'. destruct Hin' as (c'' & [= -> _] & _).
    contradiction.
Qed.

Lemma fetch_cells_app l1 l2 t :
  fetch_cells (l1 ++ l2) t =
  (fst (fetch_cells l1 t) ++ fst (fetch_cells l2 (snd (fetch_cells l1 t))),
   snd (fetch_cells l2 (snd (fetch_cells l1 t)))).
Proof.
  revert t. induction l1 as [|[row col] l1 IH]; intros t.
  - cbn. now destruct (fetch_cells l2 t).
  - cbn [app fetch_cells].
    destruct (fetch (url_at row col) t) as [tile t1]. rewrite IH.
    destruct (fetch_cells l1 t1) as [out t2]. reflexivity.
Qed.

Lemma fetch_cells_positions cs t :
  Forall (fun c => In (c_row c, c_col c) cs)
         (fst (fetch_cells cs t)).
Proof.
  revert t. induction cs as [|[row col] rest IH]; intros t; [constructor|].
  cbn [fetch_cells]. destruct (fetch (url_at row col) t) as [tile t1].
  specialize (IH t1). destruct (fetch_cells rest t1) as [out t2].
  cbn [fst] in *. constructor; [now left|].
  eapply Forall_impl; [|exact IH]. intros c Hc. now right.
Qed.

(** Tiles pasted for other cells leave the pixels of a block alone. *)
Lemma pasted_px_other out row col i j :
  in_block row col i j ->
  (forall c, In c out -> (c_row c, c_col c) <> (row, col)) ->
  forall canvas, px (pasted out canvas) i j = px canvas i j.
Proof.
  intros Hblock. unfold pasted.
  induction out as [|c out IH]; intros Hother canvas; [reflexivity|].
  cbn [fold_left]. rewrite IH by (intros c' Hc'; apply Hother; now right).
  destruct (c_tile c) as [tile|]; [|reflexivity].
  cbn [paste px]. rewrite normalized_size.
  destruct (in_box _ _ _ i j) eqn:Hbox; [|reflexivity].
  apply in_box_block in Hbox. destruct Hbox as [Hblock' _].
  destruct (blocks_disjoint _ _ _ _ _ _ Hblock Hblock') as [Hr Hc].
  exfalso. apply (Hother c); [now left | congruence].
Qed.

(** X8 (every tile lands in its own block).  After the double loop, a
    pixel of the block of cell [(row, col)] shows the tile fetched for
    that cell and nothing else: the normalized tile, read at the pixel's
    offset inside the block and blended over the transparent background
    with its own alpha; where the fetch failed the pixel is still
    transparent.  No other cell's tile reaches it. *)
Theorem canvas_shows_each_tile w row col i j :
  rectangular ->
  0 <= row < GRID_ROWS -> 0 <= col < GRID_COLS ->
  in_block row col i j ->
  exists s w' tile,
    tile_loop w = (Ok s, w') /\
    In (mkCell row col (url_at row col) tile)
       (fst (fetch_cells cells (trace w))) /\
    px (merged_image s) i j =
    match tile with
    | Some tile =>
        blend [0; 0; 0; 0]
          (px (normalized tile) (i - col * TILE_SIZE) (j - row * TILE_SIZE))
          (px (normalized tile) (i - col * TILE_SIZE) (j - row * TILE_SIZE))
    | None => [0; 0; 0; 0]
    end.
Proof.
  intros Hrect Hrow Hcol Hblock.
  destruct (tile_loop_run w Hrect) as [l Hrun].
  assert (Hin : In (row, col) cells).
  { unfold cells. apply in_flat_map. exists row.
    split; [apply in_range; lia|]. apply in_map. apply in_range. lia. }
  destruct (in_split _ _ Hin) as (l1 & l2 & Hsplit).
  pose proof NoDup_cells as Hnd. rewrite Hsplit in Hnd.
  apply NoDup_remove_2 in Hnd.
  assert (Hout :
    fst (fetch_cells cells (trace w)) =
    fst (fetch_cells l1 (trace w)) ++
    mkCell row col (url_at row col)
      (fst (fetch (url_at row col) (snd (fetch_cells l1 (trace w))))) ::
    fst (fetch_cells l2
           (snd (fetch (url_at row col) (snd (fetch_cells l1 (trace w))))))).
  { rewrite Hsplit, fetch_cells_app. cbn [fst fetch_cells].
    destruct (fetch (url_at row col) (snd (fetch_cells l1 (trace w))))
      as [tile t1].
    cbn [fst snd]. now destruct (fetch_cells l2 t1). }
  do 2 eexists.
  exists (fst (fetch (url_at row col) (snd (fetch_cells l1 (trace w))))).
  split; [exact Hrun|]. split.
  { rewrite Hout. apply in_or_app. right. now left. }
  cbn [merged_image]. rewrite Hout. unfold pasted. rewrite fold_left_app.
  cbn [fold_left]. fold (pasted (fst (fetch_cells l1 (trace w))) blank_canvas).
  match goal with
  | |- px (fold_left ?f ?out2 ?cv) i j = _ =>
      change (fold_left f out2 cv) with (pasted out2 cv)
  end.
  rewrite (pasted_px_other _ row col i j Hblock).
  2:{ intros c Hc Hpos.
      pose proof (fetch_cells_positions l2
        (snd (fetch (url_at row col) (snd (fetch_cells l1 (trace w))))))
        as Hpos2.
      rewrite Forall_forall in Hpos2. specialize (Hpos2 c Hc).
      rewrite Hpos in Hpos2. apply Hnd. apply in_or_app. now right. }
  assert (Hbefore :
    px (pasted (fst (fetch_cells l1 (trace w))) blank_canvas) i j =
    [0; 0; 0; 0]).
  { rewrite (pasted_px_other _ row col i j Hblock); [reflexivity|].
    intros c Hc Hpos.
    pose proof (fetch_cells_positions l1 (trace w)) as Hpos1.
    rewrite Forall_forall in Hpos1. specialize (Hpos1 c Hc).
    rewrite Hpos in Hpos1. apply Hnd. apply in_or_app. now left. }
  cbn [c_tile c_row c_col].
  destruct (fst (fetch (url_at row col) (snd (fetch_cells l1 (trace w)))))
    as [tile|]; [|exact Hbefore].
  cbn [paste px]. rewrite normalized_size, pasted_size.
  replace (in_box _ _ _ i j) with true; [now rewrite Hbefore|].
  symmetry. apply in_box_block. split; [exact Hblock|].
  cbn [size blank_canvas Image_new fst snd].
  unfold ORIGINAL_WIDTH, ORIGINAL_HEIGHT. unfold in_block in Hblock. nia.
Qed.

Lemma saves_app t1 t2 : saves (t1 ++ t2) = saves t1 ++ saves t2.
Proof. apply flat_map_app. Qed.

Lemma saves_fs_events t : fs_events t = [] -> saves t = [].
Proof.
  unfold fs_events, saves. induction t as [|e t IH]; [reflexivity|].
  cbn [filter flat_map]. destruct e; try discriminate; exact IH.
Qed.

(** X9 (what is persisted).  On a rectangular grid [main] tries to write
    at most one file in the whole run.  The image it hands to the file
    system is the finished canvas, with the tile of every cell pasted and
    upscaled with NEAREST to [(FINAL_WIDTH, FINAL_HEIGHT)] when
    [SCALE_FACTOR > 1]; no other image is ever written, and [main] returns
    [True] only after that write.  [main] raises only what the upscale of
    line 133 raises, and then nothing was written. *)
Theorem main_saves_merged_image w :
  rectangular ->
  let out := fst (fetch_cells cells (trace w)) in
  let final :=
    if SCALE_FACTOR >? 1
    then resize (pasted out blank_canvas) (FINAL_WIDTH, FINAL_HEIGHT) NEAREST
    else pasted out blank_canvas in
  exists r w' added,
    main w = (r, w') /\
    trace w' = trace w ++ added /\
    (saves added = [] \/
     exists path,
       saves added = [(path, final)] /\
       Forall (fun c => c_tile c <> None) out) /\
    (r = Ok true -> exists path, saves added = [(path, final)]) /\
    (forall e,
       r = Raise e ->
       saves added = [] /\
       Forall (fun c => c_tile c <> None) out /\
       upscale_raises (pasted out blank_canvas) = Some e) /\
    (upscale_raises (pasted out blank_canvas) = None ->
     exists success, r = Ok success).
Proof.
  intros Hrect out final.
  destruct (create_merged_image_run (after_banner w) Hrect) as [lm Hmain].
  cbn [after_banner trace] in Hmain. fold (after_banner w) in Hmain.
  fold out in Hmain. rewrite main_run, Hmain.
  destruct (fetch_cells_budget cells (trace w))
    as (fetched_events & Ht & _ & _ & _ & _ & Hfs).
  apply saves_fs_events in Hfs.
  destruct (failed_urls out) as [|u us] eqn:Hf.
  - assert (Hall : Forall (fun c => c_tile c <> None) out)
      by now apply failed_urls_nil.
    destruct (upscale_raises (pasted out blank_canvas)) as [e|] eqn:Hup.
    { do 2 eexists. exists fetched_events. split; [reflexivity|].
      cbn [trace]. split; [exact Ht|]. split; [now left|].
      split; [discriminate|]. split; [|discriminate].
      intros e' [= <-]. auto. }
    change (upscaled (pasted out blank_canvas)) with final.
    destruct (save_image_trace final "output"
                (before_save
                   (mkWorld (snd (fetch_cells cells (trace w)))
                            (log (after_banner w) ++ lm))))
      as (r & w2 & l & -> & _ & Hcases).
    cbn [before_save trace] in Hcases. rewrite Ht in Hcases.
    destruct Hcases
      as [(-> & Htr & _) | [(-> & Htr & _) | [(-> & Htr & _)
         | (-> & Htr & _)]]];
      [cbn [truthy] | cbn [truthy] | cbn [truthy] |
       match goal with
       | |- context [truthy (Some ?p)] =>
           replace (truthy (Some p)) with true
             by (symmetry; apply path_join_truthy)
       end];
      do 2 eexists.
    + exists (fetched_events ++ [EvMakedirs "output"]).
      split; [reflexivity|]. cbn [trace].
      split; [rewrite Htr; now rewrite <- !app_assoc|].
      split; [|split; [discriminate | split; [discriminate | eauto]]].
      left. rewrite saves_app, Hfs. reflexivity.
    + eexists (fetched_events ++ [EvMakedirs "output"; EvNow; EvMakedirs _]).
      split; [reflexivity|]. cbn [trace].
      split; [rewrite Htr; now rewrite <- !app_assoc|].
      split; [|split; [discriminate | split; [discriminate | eauto]]].
      left. rewrite saves_app, Hfs. reflexivity.
    + eexists (fetched_events ++
               [EvMakedirs "output"; EvNow; EvMakedirs _; EvNow;
                EvSave _ final]).
      split; [reflexivity|]. cbn [trace].
      split; [rewrite Htr; now rewrite <- !app_assoc|].
      split; [|split; [discriminate | split; [discriminate | eauto]]].
      right. eexists.
      rewrite saves_app, Hfs. split; [reflexivity | exact Hall].
    + eexists (fetched_events ++
               [EvMakedirs "output"; EvNow; EvMakedirs _; EvNow;
                EvSave _ final]).
      split; [reflexivity|]. cbn [trace].
      split; [rewrite Htr; now rewrite <- !app_assoc|].
      split; [|split; [|split; [discriminate | eauto]]];
        [right | intros _]; eexists;
        rewrite saves_app, Hfs; [split; [reflexivity | exact Hall]|];
        reflexivity.
  - do 2 eexists. exists fetched_events. split; [reflexivity|].
    cbn [trace]. split; [exact Ht|]. split; [now left|].
    split; [discriminate|]. split; [discriminate | eauto].
Qed.

(** An iteration whose cell exists in its row, rectangular grid or not. *)
Lemma loop_body_wide row col s w :
  0 <= row < GRID_ROWS ->
  0 <= col < len (nth (Z.to_nat row) TILE_URLS []) ->
  exists s' w',
    loop_body row col s w = (Ok s', w') /\
    fs_events (trace w') = fs_events (trace w).
Proof.
  intros Hrow Hcol. unfold loop_body. unfold bind at 1.
  rewrite (index_in_range TILE_URLS row []) by exact Hrow.
  unfold bind at 1.
  rewrite (index_in_range _ col ""%string) by exact Hcol.
  fold (url_at row col). unfold bind at 1. cbn [logger]. unfold bind at 1.
  match goal with
  | |- context [download_image _ _ _ _ ?w1] =>
      destruct (download_image_fetch (url_at row col) w1) as [l ->]
  end.
  cbn [trace log].
  pose proof (fetch_fs_events (url_at row col) (trace w)) as Hfs.
  destruct (fst (fetch (url_at row col) (trace w))) as [tile|].
  - destruct (size_eqb (size tile) (TILE_SIZE, TILE_SIZE));
      unfold bind, logger, ret; cbn [trace log];
      do 2 eexists; (split; [reflexivity | exact Hfs]).
  - unfold bind, logger, ret; cbn [trace log].
    do 2 eexists. split; [reflexivity | exact Hfs].
Qed.

(** An iteration whose cell is missing from its row: the indexing raises
    before anything is logged or requested. *)
Lemma loop_body_short row col s w :
  0 <= row < GRID_ROWS ->
  len (nth (Z.to_nat row) TILE_URLS []) <= col ->
  loop_body row col s w = (Raise IndexError, w).
Proof.
  intros Hrow Hcol. unfold loop_body. unfold bind at 1.
  rewrite (index_in_range TILE_URLS row []) by exact Hrow.
  unfold bind at 1. now rewrite index_out_of_range by exact Hcol.
Qed.

Lemma inner_loop_wide row cols s w :
  0 <= row < GRID_ROWS ->
  (forall c, In c cols -> 0 <= c < len (nth (Z.to_nat row) TILE_URLS [])) ->
  exists s' w',
    for_each cols (fun col => loop_body row col) s w = (Ok s', w') /\
    fs_events (trace w') = fs_events (trace w).
Proof.
  intros Hrow. revert s w.
  induction cols as [|c cols IH]; intros s w Hcols.
  - do 2 eexists. split; reflexivity.
  - cbn [for_each]. unfold bind.
    destruct (loop_body_wide row c s w Hrow) as (s1 & w1 & -> & Hfs1).
    { apply Hcols. now left. }
    destruct (IH s1 w1) as (s2 & w2 & -> & Hfs2).
    { intros c' Hc'. apply Hcols. now right. }
    do 2 eexists. split; [reflexivity | congruence].
Qed.

Lemma inner_loop_short row cols s w :
  0 <= row < GRID_ROWS ->
  (forall c, In c cols -> 0 <= c) ->
  (exists c, In c cols /\ len (nth (Z.to_nat row) TILE_URLS []) <= c) ->
  exists w',
    for_each cols (fun col => loop_body row col) s w =
      (Raise IndexError, w') /\
    fs_events (trace w') = fs_events (trace w).
Proof.
  intros Hrow. revert s w.
  induction cols as [|c cols IH]; intros s w Hpos (c0 & Hin & Hshort);
    [destruct Hin|].
  cbn [for_each]. unfold bind.
  destruct (Z_lt_le_dec c (len (nth (Z.to_nat row) TILE_URLS [])))
    as [Hlt | Hge].
  - destruct (loop_body_wide row c s w Hrow) as (s1 & w1 & -> & Hfs1).
    { split; [apply Hpos; now left | exact Hlt]. }
    destruct (IH s1 w1) as (w2 & -> & Hfs2).
    { intros c' Hc'. apply Hpos. now right. }
    { exists c0. split; [|exact Hshort].
      destruct Hin as [->|Hin]; [lia | exact Hin]. }
    eexists. split; [reflexivity | congruence].
  - rewrite (loop_body_short row c s w Hrow Hge).
    eexists. split; reflexivity.
Qed.

Lemma outer_loop_short rows s w :
  (forall r, In r rows -> 0 <= r < GRID_ROWS) ->
  (exists r, In r rows /\
             len (nth (Z.to_nat r) TILE_URLS []) < GRID_COLS) ->
  exists w',
    for_each rows
      (fun row => for_each (range 0 GRID_COLS)
                    (fun col => loop_body row col)) s w =
      (Raise IndexError, w') /\
    fs_events (trace w') = fs_events (trace w).
Proof.
  revert s w.
  induction rows as [|r rows IH]; intros s w Hrows (r0 & Hin & Hshort);
    [destruct Hin|].
  assert (Hr : 0 <= r < GRID_ROWS) by (apply Hrows; now left).
  cbn [for_each]. unfold bind.
  destruct (Z_lt_le_dec (len (nth (Z.to_nat r) TILE_URLS [])) GRID_COLS)
    as [Hlt | Hge].
  - destruct (inner_loop_short r (range 0 GRID_COLS) s w Hr)
      as (w1 & -> & Hfs1).
    { intros c Hc. apply in_range in Hc. lia. }
    { exists (len (nth (Z.to_nat r) TILE_URLS [])).
      split; [apply in_range; unfold len in *; lia | lia]. }
    eexists. split; [reflexivity | exact Hfs1].
  - destruct (inner_loop_wide r (range 0 GRID_COLS) s w Hr)
      as (s1 & w1 & -> & Hfs1).
    { intros c Hc. apply in_range in Hc. lia. }
    destruct (IH s1 w1) as (w2 & -> & Hfs2).
    { intros r' Hr'. apply Hrows. now right. }
    { exists r0. split; [|exact Hshort].
      destruct Hin as [->|Hin]; [lia | exact Hin]. }
    eexists. split; [reflexivity | congruence].
Qed.

(** X10 (a ragged grid).  If some row of the grid is shorter than the
    first, indexing [TILE_URLS[row][col]] raises [IndexError] inside the
    double loop.  Nothing catches it: [create_merged_image] and [main]
    raise it too, the interpreter ends with a traceback instead of an exit
    status from the script, and the file system has not been touched. *)
Theorem ragged_grid_raises w :
  (exists row,
     0 <= row < GRID_ROWS /\
     len (nth (Z.to_nat row) TILE_URLS []) < GRID_COLS) ->
  exists w1 w2,
    tile_loop w = (Raise IndexError, w1) /\
    create_merged_image w = (Raise IndexError, w1) /\
    main w = (Raise IndexError, w2) /\
    script w = (Traceback IndexError, w2) /\
    fs_events (trace w2) = fs_events (trace w).
Proof.
  intros (row & Hrow & Hshort).
  assert (Hloop : forall w0,
    exists w',
      tile_loop w0 = (Raise IndexError, w') /\
      fs_events (trace w') = fs_events (trace w0)).
  { intros w0. unfold tile_loop. unfold bind, logger.
    match goal with
    | |- context [for_each _ _ ?s ?w1] =>
        destruct (outer_loop_short (range 0 GRID_ROWS) s w1)
          as (w' & -> & Hfs)
    end.
    - intros r Hr. now apply in_range in Hr.
    - exists row. split; [now apply in_range | exact Hshort].
    - exists w'. split; [reflexivity | exact Hfs]. }
  destruct (Hloop w) as (w1 & Hrun & _).
  destruct (Hloop (after_banner w)) as (w3 & Hrun3 & Hfs3).
  exists w1, w3. split; [exact Hrun|].
  split; [unfold create_merged_image, bind; now rewrite Hrun|].
  assert (Hmain : main w = (Raise IndexError, w3)).
  { rewrite main_run. unfold create_merged_image, bind.
    now rewrite Hrun3. }
  split; [exact Hmain|].
  split; [unfold script; now rewrite Hmain | exact Hfs3].
Qed.

Lemma loop_body_run_wide row col s w :
  0 <= row < GRID_ROWS ->
  0 <= col < len (nth (Z.to_nat row) TILE_URLS []) ->
  exists l,
    loop_body row col s w =
    (Ok (after_body row col s (fst (fetch (url_at row col) (trace w)))),
     mkWorld (snd (fetch (url_at row col) (trace w))) (log w ++ l)).
Proof.
  intros Hrow Hcol. unfold loop_body. unfold bind at 1.
  rewrite (index_in_range TILE_URLS row []) by exact Hrow.
  unfold bind at 1.
  rewrite (index_in_range _ col ""%string) by exact Hcol.
  fold (url_at row col). unfold bind at 1. cbn [logger]. unfold bind at 1.
  match goal with
  | |- context [download_image _ _ _ _ ?w1] =>
      destruct (download_image_fetch (url_at row col) w1) as [l ->]
  end.
  cbn [trace log].
  destruct (fst (fetch (url_at row col) (trace w))) as [tile|].
  - destruct (size_eqb (size tile) (TILE_SIZE, TILE_SIZE));
      unfold bind, logger, ret; cbn; eexists;
      rewrite <- ?app_assoc; reflexivity.
  - unfold bind, logger, ret; cbn; eexists;
      rewrite <- ?app_assoc; reflexivity.
Qed.

Lemma for_each_cells_run_wide cs :
  Forall (fun rc => 0 <= fst rc < GRID_ROWS /\
                    0 <= snd rc <
                      len (nth (Z.to_nat (fst rc)) TILE_URLS [])) cs ->
  forall s w,
  exists l,
    for_each cs (fun rc => loop_body (fst rc) (snd rc)) s w =
    (Ok (after_cells s (fst (fetch_cells cs (trace w)))),
     mkWorld (snd (fetch_cells cs (trace w))) (log w ++ l)).
Proof.
  induction cs as [|[row col] rest IH]; intros Hin s w.
  - exists []. cbn. unfold ret, after_cells, len. cbn.
    rewrite !app_nil_r, Z.add_0_r. now destruct s, w.
  - inversion Hin as [|? ? [Hrow Hcol] Hrest]; subst. cbn in Hrow, Hcol.
    cbn [for_each fst snd]. unfold bind.
    destruct (loop_body_run_wide row col s w Hrow Hcol) as [l0 ->].
    destruct (IH Hrest
                (after_body row col s (fst (fetch (url_at row col) (trace w))))
                (mkWorld (snd (fetch (url_at row col) (trace w)))
                         (log w ++ l0))) as [l ->].
    cbn [trace log fetch_cells].
    destruct (fetch (url_at row col) (trace w)) as [tile t1].
    cbn [fst snd].
    destruct (fetch_cells rest t1) as [out t2]. cbn [fst snd].
    exists (l0 ++ l). rewrite <- app_assoc. f_equal. f_equal.
    unfold after_cells, after_body, pasted, failed_urls, fetched, len.
    destruct tile as [tile|]; cbn.
    + f_equal. lia.
    + now rewrite <- app_assoc.
Qed.

(** X11 (rows longer than the first).  The width of the grid is the
    length of its first row.  When no row is shorter than that, the double
    loop completes, ragged grid or not: it visits [GRID_ROWS * GRID_COLS]
    cells, counts each once, and requests only URLs found at a column
    below [GRID_COLS]; what a longer row holds beyond that is never
    requested. *)
Theorem wide_grid_ignores_extra_urls w :
  (forall row, 0 <= row < GRID_ROWS ->
     GRID_COLS <= len (nth (Z.to_nat row) TILE_URLS [])) ->
  exists s w' added,
    tile_loop w = (Ok s, w') /\
    trace w' = trace w ++ added /\
    Forall (fun g =>
              exists row col,
                0 <= row < GRID_ROWS /\ 0 <= col < GRID_COLS /\
                fst g = url_at row col) (gets added) /\
    successful_tiles s + len (failed_tiles s) = TOTAL_TILES.
Proof.
  intros Hwide.
  assert (Hcells :
    Forall (fun rc => 0 <= fst rc < GRID_ROWS /\
                      0 <= snd rc <
                        len (nth (Z.to_nat (fst rc)) TILE_URLS [])) cells).
  { eapply Forall_impl; [|exact cells_in_grid].
    intros [row col] [Hrow Hcol]. cbn [fst snd] in *.
    specialize (Hwide row Hrow). lia. }
  unfold tile_loop. unfold bind, logger. rewrite double_loop_cells.
  match goal with
  | |- context [for_each cells _ ?s ?w1] =>
      destruct (for_each_cells_run_wide cells Hcells s w1) as [l ->]
  end.
  cbn [trace log].
  destruct (fetch_cells_budget cells (trace w))
    as (added & Ht & Hg & _ & _ & _ & _).
  do 2 eexists. exists added. split; [reflexivity|]. cbn [trace].
  split; [exact Ht|]. split.
  - eapply Forall_impl; [|exact Hg]. intros g [Hin _].
    apply in_map_iff in Hin. destruct Hin as ([row col] & Hurl & Hin).
    pose proof cells_in_grid as Hgrid. rewrite Forall_forall in Hgrid.
    destruct (Hgrid _ Hin) as [Hrow Hcol]. cbn [fst snd] in *.
    exists row, col. auto.
  - cbn [after_cells successful_tiles failed_tiles app].
    rewrite <- Z.add_assoc, fetched_or_failed.
    unfold TOTAL_TILES. rewrite <- length_cells. unfold len.
    rewrite <- (length_map c_url), fetch_cells_urls, length_map.
    reflexivity.
Qed.

(** X12 (normalizing is idempotent).  A tile is pasted as it is, neither
    resized nor converted, exactly when it is already
    [TILE_SIZE x TILE_SIZE] and RGBA; so normalizing a normalized tile
    changes nothing. *)
Theorem normalized_idempotent tile :
  (normalized tile = tile <->
   size tile = (TILE_SIZE, TILE_SIZE) /\ mode tile = "RGBA"%string) /\
  normalized (normalized tile) = normalized tile.
Proof.
  assert (Hfix : forall t, size t = (TILE_SIZE, TILE_SIZE) ->
                           mode t = "RGBA"%string -> normalized t = t).
  { intros t Hs Hm. unfold normalized.
    replace (size_eqb (size t) (TILE_SIZE, TILE_SIZE)) with true
      by (symmetry; now apply size_eqb_eq).
    now rewrite Hm. }
  split; [split|].
  - intros <-. split; [apply normalized_size | apply normalized_mode].
  - intros [Hs Hm]. now apply Hfix.
  - apply Hfix; [apply normalized_size | apply normalized_mode].
Qed.

(** X13 (the returned image, for every scale factor).  Whenever
    [create_merged_image] returns an image it is an RGBA image of size
    [(ORIGINAL_WIDTH * m, ORIGINAL_HEIGHT * m)] with
    [m = max(1, SCALE_FACTOR)]: every integer scale factor below 1 acts as
    1, and the upscaled image keeps the mode of the canvas.  It does
    return an image when every fetch succeeded and the upscale of line 133
    raises nothing. *)
Theorem create_merged_image_format w :
  rectangular ->
  exists r w',
    create_merged_image w = (r, w') /\
    (forall image,
       r = Ok (Some image) ->
       mode image = "RGBA"%string /\
       size image = (TILE_SIZE * GRID_COLS * Z.max 1 SCALE_FACTOR,
                     TILE_SIZE * GRID_ROWS * Z.max 1 SCALE_FACTOR)) /\
    (Forall (fun c => c_tile c <> None) (fst (fetch_cells cells (trace w))) ->
     upscale_raises
       (pasted (fst (fetch_cells cells (trace w))) blank_canvas) = None ->
     exists image, r = Ok (Some image)).
Proof.
  intros Hrect. destruct (create_merged_image_run w Hrect) as [l Hrun].
  do 2 eexists. split; [exact Hrun|]. split.
  - intros image Himage.
    destruct (failed_urls (fst (fetch_cells cells (trace w))));
      [|discriminate].
    destruct (upscale_raises _); [discriminate|].
    injection Himage as <-. unfold upscaled.
    destruct (SCALE_FACTOR >? 1) eqn:Hgt.
    + cbn [mode size resize]. rewrite pasted_mode. split; [reflexivity|].
      rewrite Z.gtb_ltb in Hgt. apply Z.ltb_lt in Hgt.
      rewrite Z.max_r by lia. reflexivity.
    + rewrite pasted_mode, pasted_size. split; [reflexivity|].
      rewrite Z.gtb_ltb in Hgt. apply Z.ltb_ge in Hgt.
      rewrite Z.max_l by lia. cbn [size blank_canvas Image_new].
      unfold ORIGINAL_WIDTH, ORIGINAL_HEIGHT. f_equal; ring.
  - intros Hall Hup. apply failed_urls_nil in Hall.
    rewrite Hall, Hup. eauto.
Qed.

End Script.

(** ** The script on concrete runs *)

(** All six tiles served, [SCALE_FACTOR=2]: one 6000x4000 file is saved and
    the status is 0. *)
Example surabaya_scale_2 :
  let '(status, w) :=
    script Sample.served Sample.open_png Sample.decode_png
      Sample.resample Sample.convert_pixels Sample.blend Sample.resize_raises
      Sample.makedirs Sample.clock Sample.save
      Sample.TILE_URLS Sample.TILE_SIZE 2 Sample.w0 in
  status = ExitCode 0 /\
  map (fun s => (fst s, size (snd s))) (saves (trace w)) =
  [("output/20250817/merged_tiles_20250817_120000.png"%string,
    (6000, 4000))] /\
  List.length (gets (trace w)) = 6%nat /\
  sleeps (trace w) = [].
Proof. vm_compute. repeat split. Qed.

(** All six tiles served, [SCALE_FACTOR=1]: the file is 3000x2000. *)
Example surabaya_scale_1 :
  map (fun s => size (snd s))
    (saves (trace (snd
       (script Sample.served Sample.open_png Sample.decode_png
      Sample.resample Sample.convert_pixels Sample.blend Sample.resize_raises
      Sample.makedirs Sample.clock Sample.save
      Sample.TILE_URLS Sample.TILE_SIZE 1 Sample.w0)))) =
  [(3000, 2000)].
Proof. vm_compute. reflexivity. Qed.

(** One of the six URLs answers HTTP 500 on every attempt: five requests go
    to it, the other five cells get one each, the status is 1 and the file
    system is not touched. *)
Example surabaya_one_tile_missing :
  let bad := "https://backend.wplace.live/files/s0/tiles/1665/1066.png"%string in
  let '(status, w) :=
    script (Sample.missing bad) Sample.open_png Sample.decode_png
      Sample.resample Sample.convert_pixels Sample.blend Sample.resize_raises
      Sample.makedirs Sample.clock Sample.save
      Sample.TILE_URLS Sample.TILE_SIZE 2 Sample.w0 in
  status = ExitCode 1 /\
  List.length (gets (trace w)) = 10%nat /\
  sleeps (trace w) = [3 # 2; 3 # 1; 9 # 2; 6 # 1] /\
  fs_events (trace w) = [] /\
  failed_urls
    (fst (fetch_cells (Sample.missing bad) Sample.open_png Sample.decode_png
            Sample.TILE_URLS (cells Sample.TILE_URLS) [])) = [bad].
Proof. vm_compute. repeat split. Qed.

(** The file system refuses the write: the status is 1. *)
Example surabaya_disk_full :
  fst (script Sample.served Sample.open_png Sample.decode_png
      Sample.resample Sample.convert_pixels Sample.blend Sample.resize_raises
      Sample.makedirs Sample.clock Sample.disk_full
      Sample.TILE_URLS Sample.TILE_SIZE 2 Sample.w0) = ExitCode 1.
Proof. vm_compute. reflexivity. Qed.

(** Two refused requests, then a reply: three requests, two pauses. *)
Example flaky_third_attempt :
  let '(r, w) :=
    download_image Sample.flaky Sample.open_png Sample.decode_png
      "u" 30 5 (Finite (3 # 2)) Sample.w0 in
  (exists image, r = Ok (Some image)) /\
  List.length (gets (trace w)) = 3%nat /\
  sleeps (trace w) = [3 # 2; 3 # 1].
Proof. vm_compute. repeat split. eexists. reflexivity. Qed.

(** A body that does not open is retried like a refused request: five
    requests, four pauses, [None], and the codec's error in the last
    record. *)
Example corrupt_body_retried :
  let '(r, w) :=
    download_image Sample.empty_body Sample.open_png Sample.decode_png
      "u" 30 5 (Finite (3 # 2)) Sample.w0 in
  r = Ok None /\
  List.length (gets (trace w)) = 5%nat /\
  sleeps (trace w) = [3 # 2; 3 # 1; 9 # 2; 6 # 1] /\
  List.last (log w) (INFO, MsgCreating) =
  (ERROR,
   MsgGaveUp "u" 5 (Some (OtherException "UnidentifiedImageError"))).
Proof. vm_compute. repeat split. Qed.

(** The double nearest to 0.1 is [3602879701896397 / 2^55]; three times it
    is no double, and the third pause of a call with [backoff_seconds=0.1]
    lasts [0.30000000000000004] seconds, the double above the product. *)
Example backoff_product_is_rounded :
  let tenth := 3602879701896397 # (2 ^ 55) in
  round_double (1 # 10) = Finite tenth /\
  pause (Finite tenth) 3 = inr (1351079888211149 # (2 ^ 52)) /\
  (tenth * inject_Z 3 < 1351079888211149 # (2 ^ 52))%Q.
Proof. vm_compute. repeat split. Qed.

(** A pause of [-1.0] seconds: [time.sleep] raises [ValueError] after the
    first failed request, outside the [try], and the call ends there. *)
Example negative_backoff_raises :
  let '(r, w) :=
    download_image Sample.refused Sample.open_png Sample.decode_png
      "u" 30 2 (Finite (-1 # 1)) Sample.w0 in
  r = Raise (OtherException "ValueError") /\
  trace w = [EvGet "u" 30].
Proof. vm_compute. repeat split. Qed.

(** A fetched 512x512 RGB tile, resized and converted, fills its block:
    the pixel at (2500, 1500) belongs to cell (1, 2). *)
Example surabaya_pixel_of_cell_1_2 :
  match
    fst (tile_loop Sample.served Sample.open_small Sample.decode_png
           Sample.resample Sample.convert_pixels Sample.blend
           Sample.TILE_URLS Sample.TILE_SIZE Sample.w0)
  with
  | Ok s => px (merged_image s) 2500 1500
  | Raise _ => []
  end = [10; 20; 30; 255].
Proof. vm_compute. reflexivity. Qed.

(** A grid with a short second row: indexing raises and the interpreter
    ends with a traceback. *)
Example ragged_grid_traceback :
  fst (script Sample.served Sample.open_png Sample.decode_png
      Sample.resample Sample.convert_pixels Sample.blend Sample.resize_raises
      Sample.makedirs Sample.clock Sample.save
      [["a"; "b"]; ["c"]]%string 1000 2 Sample.w0) = Traceback IndexError.
Proof. vm_compute. reflexivity. Qed.

(** The grid [[[]]] has one row and no column: no tile is fetched, the
    canvas is 0x1000, and the upscale to 0x2000 is refused. *)
Example empty_row_upscale_refused :
  fst (create_merged_image Sample.served Sample.open_png Sample.decode_png
      Sample.resample Sample.convert_pixels Sample.blend Sample.resize_raises
      [[]] 1000 2 Sample.w0) = Raise (OtherException "ValueError").
Proof. vm_compute. reflexivity. Qed.

(** ** Witnesses and counterexamples *)



Lemma download_image_first_attempt_witness :
  1 <= 5 /\
  exists w',
    download_image Sample.served Sample.open_png Sample.decode_png
      "u" 30 5 (Finite (3 # 2)) Sample.w0 =
    (Ok (Some (mkImage (1000, 1000) "RGBA" (fun _ _ => [10; 20; 30; 255]))),
     w') /\
    trace w' = trace Sample.w0 ++ [EvGet "u" 30].
Proof.
  split; [lia|].
  destruct (download_image_first_attempt
              Sample.served Sample.open_png Sample.decode_png
              "u" 30 5 (Finite (3 # 2)) Sample.w0
              (mkResponse 200 (inr Sample.png)) Sample.png
              (mkImageFile (1000, 1000) "RGBA" Sample.png)
              (fun _ _ => [10; 20; 30; 255]))
    as (w' & Hrun & Htrace & _); try reflexivity.
  - lia.
  - exists w'. split; assumption.
Defined.



Lemma loop_body_places_tile_witness :
  let s := mkLocals (blank_canvas Sample.TILE_URLS Sample.TILE_SIZE) [] 0 in
  let tile := mkImage (512, 512) "RGB" (fun _ _ => [10; 20; 30; 255]) in
  rectangular Sample.TILE_URLS /\
  0 <= 1 < GRID_ROWS Sample.TILE_URLS /\
  0 <= 2 < GRID_COLS Sample.TILE_URLS /\
  fst (fetch Sample.served Sample.open_small Sample.decode_png
         (url_at Sample.TILE_URLS 1 2) (trace Sample.w0)) = Some tile /\
  exists placed canvas w',
    loop_body Sample.served Sample.open_small Sample.decode_png
      Sample.resample Sample.convert_pixels Sample.blend
      Sample.TILE_URLS Sample.TILE_SIZE 1 2 s Sample.w0 =
    (Ok (mkLocals canvas [] 1), w') /\
    size placed = (1000, 1000) /\
    mode placed = "RGBA"%string /\
    canvas = paste Sample.blend (merged_image s) placed (2000, 1000) placed.
Proof.
  intros s tile.
  split; [repeat constructor|].
  split; [cbn; lia|]. split; [cbn; lia|]. split; [reflexivity|].
  destruct (loop_body_places_tile
              Sample.served Sample.open_small Sample.decode_png
              Sample.resample Sample.convert_pixels Sample.blend
              Sample.TILE_URLS Sample.TILE_SIZE 1 2 s Sample.w0 tile)
    as (placed & canvas & w' & Hrun & _ & Hsize & Hmode & Hcanvas & _).
  - repeat constructor.
  - cbn; lia.
  - cbn; lia.
  - reflexivity.
  - exists placed, canvas, w'. repeat split; assumption.
Defined.

Lemma tile_loop_failure_list_witness :
  let bad := "https://backend.wplace.live/files/s0/tiles/1665/1066.png"%string in
  rectangular Sample.TILE_URLS /\
  exists s w',
    tile_loop (Sample.missing bad) Sample.open_png Sample.decode_png
      Sample.resample Sample.convert_pixels Sample.blend
      Sample.TILE_URLS Sample.TILE_SIZE Sample.w0 = (Ok s, w') /\
    failed_tiles s = [bad].
Proof.
  intros bad. split; [repeat constructor|].
  destruct (tile_loop_failure_list
              (Sample.missing bad) Sample.open_png Sample.decode_png
              Sample.resample Sample.convert_pixels Sample.blend
              Sample.TILE_URLS Sample.TILE_SIZE Sample.w0)
    as (s & w' & Hrun & _ & _ & Hfailed & _).
  - repeat constructor.
  - exists s, w'. split; [exact Hrun|].
    rewrite Hfailed. vm_compute. reflexivity.
Defined.

Lemma tile_loop_counts_witness :
  rectangular Sample.TILE_URLS /\
  exists s w',
    tile_loop (Sample.missing "nowhere") Sample.open_png Sample.decode_png
      Sample.resample Sample.convert_pixels Sample.blend
      Sample.TILE_URLS Sample.TILE_SIZE Sample.w0 = (Ok s, w') /\
    successful_tiles s + len (failed_tiles s) = 6.
Proof.
  split; [repeat constructor|].
  destruct (tile_loop_counts
              (Sample.missing "nowhere") Sample.open_png Sample.decode_png
              Sample.resample Sample.convert_pixels Sample.blend
              Sample.TILE_URLS Sample.TILE_SIZE Sample.w0)
    as (s & w' & Hrun & Hcount & _).
  - repeat constructor.
  - exists s, w'. split; [exact Hrun | exact Hcount].
Defined.



Lemma create_merged_image_unscaled_witness :
  rectangular Sample.TILE_URLS /\
  0 <= 1 /\
  exists r w',
    create_merged_image Sample.served Sample.open_png Sample.decode_png
      Sample.resample Sample.convert_pixels Sample.blend Sample.resize_raises
      Sample.TILE_URLS Sample.TILE_SIZE 0 Sample.w0 = (Ok r, w') /\
    forall image, r = Some image -> size image = (3000, 2000).
Proof.
  split; [repeat constructor|]. split; [lia|].
  destruct (create_merged_image_unscaled
              Sample.served Sample.open_png Sample.decode_png
              Sample.resample Sample.convert_pixels Sample.blend Sample.resize_raises
              Sample.TILE_URLS Sample.TILE_SIZE 0 Sample.w0)
    as (r & w' & Hrun & _ & Himage).
  - repeat constructor.
  - lia.
  - exists r, w'. split; [exact Hrun|].
    intros image Hr. exact (proj2 (Himage image Hr)).
Defined.

Lemma create_merged_image_all_or_nothing_witness :
  rectangular Sample.TILE_URLS /\
  exists w1 w2,
    create_merged_image Sample.status_500 Sample.open_png Sample.decode_png
      Sample.resample Sample.convert_pixels Sample.blend Sample.resize_raises
      Sample.TILE_URLS Sample.TILE_SIZE 2 Sample.w0 = (Ok None, w1) /\
    main Sample.status_500 Sample.open_png Sample.decode_png
      Sample.resample Sample.convert_pixels Sample.blend Sample.resize_raises
      Sample.makedirs Sample.clock Sample.save
      Sample.TILE_URLS Sample.TILE_SIZE 2 Sample.w0 = (Ok false, w2) /\
    fs_events (trace w2) = [].
Proof.
  split; [repeat constructor|].
  destruct (create_merged_image_all_or_nothing
              Sample.status_500 Sample.open_png Sample.decode_png
              Sample.resample Sample.convert_pixels Sample.blend Sample.resize_raises
              Sample.makedirs Sample.clock Sample.save
              Sample.TILE_URLS Sample.TILE_SIZE 2 Sample.w0)
    as (r & w1 & success & w2 & Hrun & Hmain & Hnone & Hfailed & _).
  - repeat constructor.
  - assert (Hne :
      failed_urls
        (fst (fetch_cells Sample.status_500 Sample.open_png Sample.decode_png
            Sample.TILE_URLS (cells Sample.TILE_URLS) (trace Sample.w0))) <> [])
      by (vm_compute; discriminate).
    destruct (Hfailed Hne) as (-> & _ & _ & Hfs & _).
    apply Hnone in Hne. subst r.
    exists w1, w2. split; [exact Hrun|]. split; [exact Hmain | exact Hfs].
Defined.

(** C1, as the claim words it, fails: no reading of the value
    [create_merged_image] returns gives the failure list.  On the one-row
    grid [a, b], a server that serves nothing and a server that serves [b]
    only leave different failure lists, and both calls return [None]. *)
Lemma create_merged_image_failure_holds_no_list :
  ~ exists failures_of : Result (option Image) -> list string,
      forall http_get : list Event -> string -> Z -> Exn + Response,
        let run :=
          create_merged_image http_get Sample.open_png Sample.decode_png
            Sample.resample Sample.convert_pixels Sample.blend
            Sample.resize_raises
            [["a"; "b"]]%string 1000 2 Sample.w0 in
        let failed :=
          failed_urls
            (fst (fetch_cells http_get Sample.open_png Sample.decode_png
                    [["a"; "b"]]%string (cells [["a"; "b"]]%string)
                    (trace Sample.w0))) in
        failed <> [] ->
        failures_of (fst run) = failed.
Proof.
  intros [failures_of H].
  assert (H1 := H Sample.status_500). assert (H2 := H (Sample.missing "a")).
  cbv zeta in H1, H2.
  assert (E1 : failures_of (Ok None) = ["a"; "b"]%string).
  { apply H1. vm_compute. discriminate. }
  assert (E2 : failures_of (Ok None) = ["a"]%string).
  { apply H2. vm_compute. discriminate. }
  congruence.
Qed.

(** C8 fails on the script: with every tile served and
    [SCALE_FACTOR=1000000] the run does not end with an exit status of its
    own.  The resize of line 133 raises [OverflowError], nothing catches
    it, and the interpreter ends with a traceback after six requests,
    without touching the file system. *)
Theorem script_huge_scale_traceback :
  let run :=
    script Sample.served Sample.open_png Sample.decode_png
      Sample.resample Sample.convert_pixels Sample.blend Sample.resize_raises
      Sample.makedirs Sample.clock Sample.save
      Sample.TILE_URLS Sample.TILE_SIZE 1000000 Sample.w0 in
  rectangular Sample.TILE_URLS /\
  Forall (fun c => c_tile c <> None)
    (fst (fetch_cells Sample.served Sample.open_png Sample.decode_png
            Sample.TILE_URLS (cells Sample.TILE_URLS) (trace Sample.w0))) /\
  fst run = Traceback (OtherException "OverflowError") /\
  List.length (gets (trace (snd run))) = 6%nat /\
  fs_events (trace (snd run)) = [].
Proof.
  split; [repeat constructor|].
  split; [vm_compute; repeat constructor; discriminate|].
  vm_compute. repeat split.
Qed.

(** ** Further witnesses *)

Lemma script_exit_code_witness :
  rectangular Sample.TILE_URLS /\
  upscale_raises Sample.resize_raises Sample.TILE_URLS Sample.TILE_SIZE 2
    (pasted Sample.resample Sample.convert_pixels Sample.blend
       Sample.TILE_SIZE
       (fst (fetch_cells Sample.served Sample.open_png Sample.decode_png
            Sample.TILE_URLS (cells Sample.TILE_URLS) (trace Sample.w0)))
       (blank_canvas Sample.TILE_URLS Sample.TILE_SIZE)) = None /\
  exists code w',
    script Sample.served Sample.open_png Sample.decode_png
      Sample.resample Sample.convert_pixels Sample.blend Sample.resize_raises
      Sample.makedirs Sample.clock Sample.save
      Sample.TILE_URLS Sample.TILE_SIZE 2 Sample.w0 = (ExitCode code, w') /\
    (code = 0 \/ code = 1).
Proof.
  split; [repeat constructor|].
  split; [vm_compute; reflexivity|].
  destruct (script_exit_code
              Sample.served Sample.open_png Sample.decode_png
              Sample.resample Sample.convert_pixels Sample.blend Sample.resize_raises
              Sample.makedirs Sample.clock Sample.save
              Sample.TILE_URLS Sample.TILE_SIZE 2 Sample.w0)
    as (code & w' & r & w1 & Hrun & _ & _ & Hcode & _).
  - repeat constructor.
  - vm_compute. reflexivity.
  - exists code, w'. split; [exact Hrun | exact Hcode].
Defined.

Lemma download_image_no_attempts_witness :
  0 <= 0 /\
  download_image Sample.served Sample.open_png Sample.decode_png
    "u" 30 0 (Finite (3 # 2)) Sample.w0 =
  (Ok None, mkWorld [] [(ERROR, MsgGaveUp "u" 0 None)]).
Proof.
  split; [lia|].
  apply (download_image_no_attempts
           Sample.served Sample.open_png Sample.decode_png
           "u" 30 0 (Finite (3 # 2)) Sample.w0).
  lia.
Defined.


Lemma save_image_path_layout_witness :
  let image := Image_new "RGBA" (1, 1) [0; 0; 0; 0] in
  exists r w',
    save_image Sample.makedirs Sample.clock Sample.save
      image "output" Sample.w0 = (Ok r, w') /\
    trace w' =
      [EvMakedirs "output"; EvNow; EvMakedirs "output/20250817"; EvNow;
       EvSave "output/20250817/merged_tiles_20250817_120000.png" image].
Proof.
  intros image.
  destruct (save_image_path_layout
              Sample.makedirs Sample.clock Sample.save
              image "output" Sample.w0)
    as (r & w' & Hrun & Htrace & _);
    try reflexivity; try discriminate.
  exists r, w'. split; [exact Hrun | exact Htrace].
Defined.

Lemma tile_loop_request_budget_witness :
  rectangular Sample.TILE_URLS /\
  exists s w' added,
    tile_loop Sample.flaky Sample.open_png Sample.decode_png
      Sample.resample Sample.convert_pixels Sample.blend
      Sample.TILE_URLS Sample.TILE_SIZE Sample.w0 = (Ok s, w') /\
    trace w' = trace Sample.w0 ++ added /\
    6 <= len (gets added) <= 30.
Proof.
  split; [repeat constructor|].
  destruct (tile_loop_request_budget
              Sample.flaky Sample.open_png Sample.decode_png
              Sample.resample Sample.convert_pixels Sample.blend
              Sample.TILE_URLS Sample.TILE_SIZE Sample.w0)
    as (s & w' & added & Hrun & Htrace & _ & Hcount & _).
  - repeat constructor.
  - exists s, w', added. split; [exact Hrun|].
    split; [exact Htrace | exact Hcount].
Defined.

Lemma create_merged_image_healthy_witness :
  rectangular Sample.TILE_URLS /\
  (forall t u, In u (List.concat Sample.TILE_URLS) ->
     exists image,
       fetch_once Sample.served Sample.open_png Sample.decode_png
         t u 30 = inr image) /\
  exists image w',
    create_merged_image Sample.served Sample.open_png Sample.decode_png
      Sample.resample Sample.convert_pixels Sample.blend Sample.resize_raises
      Sample.TILE_URLS Sample.TILE_SIZE 2 Sample.w0 =
      (Ok (Some image), w') /\
    List.length (trace w') = 6%nat.
Proof.
  split; [repeat constructor|].
  split; [intros t u _; eexists; reflexivity|].
  destruct (create_merged_image_healthy
              Sample.served Sample.open_png Sample.decode_png
              Sample.resample Sample.convert_pixels Sample.blend Sample.resize_raises
              Sample.TILE_URLS Sample.TILE_SIZE 2 Sample.w0)
    as (r & w' & Hrun & Htrace & Hresult).
  - repeat constructor.
  - intros t u _. eexists. reflexivity.
  - replace (upscale_raises _ _ _ _ _) with (@None Exn) in Hresult
      by (vm_compute; reflexivity).
    destruct Hresult as [image ->].
    exists image, w'. split; [exact Hrun|]. rewrite Htrace. reflexivity.
Defined.

Lemma dead_url_fails_run_witness :
  let bad := "https://backend.wplace.live/files/s0/tiles/1665/1066.png"%string in
  rectangular Sample.TILE_URLS /\
  In bad (List.concat Sample.TILE_URLS) /\
  (forall t, exists e,
     fetch_once (Sample.missing bad) Sample.open_png Sample.decode_png
       t bad 30 = inl e) /\
  exists w2,
    script (Sample.missing bad) Sample.open_png Sample.decode_png
      Sample.resample Sample.convert_pixels Sample.blend Sample.resize_raises
      Sample.makedirs Sample.clock Sample.save
      Sample.TILE_URLS Sample.TILE_SIZE 2 Sample.w0 = (ExitCode 1, w2) /\
    fs_events (trace w2) = [].
Proof.
  intros bad.
  split; [repeat constructor|].
  split; [cbn; do 4 right; left; reflexivity|].
  split; [intros t; eexists; reflexivity|].
  destruct (dead_url_fails_run
              (Sample.missing bad) Sample.open_png Sample.decode_png
              Sample.resample Sample.convert_pixels Sample.blend Sample.resize_raises
              Sample.makedirs Sample.clock Sample.save
              Sample.TILE_URLS Sample.TILE_SIZE 2 Sample.w0 bad)
    as (w1 & w2 & _ & _ & Hscript & Hfs).
  - repeat constructor.
  - cbn. do 4 right. left. reflexivity.
  - intros t. eexists. reflexivity.
  - exists w2. split; [exact Hscript | exact Hfs].
Defined.

Lemma canvas_shows_each_tile_witness :
  rectangular Sample.TILE_URLS /\
  0 <= 1 < GRID_ROWS Sample.TILE_URLS /\
  0 <= 2 < GRID_COLS Sample.TILE_URLS /\
  in_block Sample.TILE_SIZE 1 2 2500 1500 /\
  exists s w' tile,
    tile_loop Sample.served Sample.open_small Sample.decode_png
      Sample.resample Sample.convert_pixels Sample.blend
      Sample.TILE_URLS Sample.TILE_SIZE Sample.w0 = (Ok s, w') /\
    px (merged_image s) 2500 1500 =
    match tile with
    | Some tile =>
        Sample.blend [0; 0; 0; 0]
          (px (normalized Sample.resample Sample.convert_pixels
                 Sample.TILE_SIZE tile) 500 500)
          (px (normalized Sample.resample Sample.convert_pixels
                 Sample.TILE_SIZE tile) 500 500)
    | None => [0; 0; 0; 0]
    end.
Proof.
  split; [repeat constructor|].
  split; [cbn; lia|]. split; [cbn; lia|].
  split; [unfold in_block, Sample.TILE_SIZE; lia|].
  destruct (canvas_shows_each_tile
              Sample.served Sample.open_small Sample.decode_png
              Sample.resample Sample.convert_pixels Sample.blend
              Sample.TILE_URLS Sample.TILE_SIZE Sample.w0 1 2 2500 1500)
    as (s & w' & tile & Hrun & _ & Hpx).
  - repeat constructor.
  - cbn; lia.
  - cbn; lia.
  - unfold in_block, Sample.TILE_SIZE; lia.
  - exists s, w', tile. split; [exact Hrun | exact Hpx].
Defined.

Lemma main_saves_merged_image_witness :
  rectangular Sample.TILE_URLS /\
  exists r w' added,
    main Sample.served Sample.open_png Sample.decode_png
      Sample.resample Sample.convert_pixels Sample.blend Sample.resize_raises
      Sample.makedirs Sample.clock Sample.save
      Sample.TILE_URLS Sample.TILE_SIZE 2 Sample.w0 = (r, w') /\
    trace w' = trace Sample.w0 ++ added /\
    (List.length (saves added) <= 1)%nat /\
    exists success, r = Ok success.
Proof.
  split; [repeat constructor|].
  destruct (main_saves_merged_image
              Sample.served Sample.open_png Sample.decode_png
              Sample.resample Sample.convert_pixels Sample.blend Sample.resize_raises
              Sample.makedirs Sample.clock Sample.save
              Sample.TILE_URLS Sample.TILE_SIZE 2 Sample.w0)
    as (r & w' & added & Hrun & Htrace & Hsaves & _ & _ & Hok).
  - repeat constructor.
  - exists r, w', added. split; [exact Hrun|].
    split; [exact Htrace|]. split.
    + destruct Hsaves as [-> | (path & -> & _)]; cbn; lia.
    + apply Hok. vm_compute. reflexivity.
Defined.

Lemma ragged_grid_raises_witness :
  (exists row,
     0 <= row < GRID_ROWS [["a"; "b"]; ["c"]]%string /\
     len (nth (Z.to_nat row) [["a"; "b"]; ["c"]]%string []) <
     GRID_COLS [["a"; "b"]; ["c"]]%string) /\
  exists w2,
    script Sample.served Sample.open_png Sample.decode_png
      Sample.resample Sample.convert_pixels Sample.blend Sample.resize_raises
      Sample.makedirs Sample.clock Sample.save
      [["a"; "b"]; ["c"]]%string 1000 2 Sample.w0 =
      (Traceback IndexError, w2).
Proof.
  split; [exists 1; unfold GRID_ROWS, GRID_COLS, len; simpl; lia|].
  destruct (ragged_grid_raises
              Sample.served Sample.open_png Sample.decode_png
              Sample.resample Sample.convert_pixels Sample.blend Sample.resize_raises
              Sample.makedirs Sample.clock Sample.save
              [["a"; "b"]; ["c"]]%string 1000 2 Sample.w0)
    as (w1 & w2 & _ & _ & _ & Hscript & _).
  - exists 1. unfold GRID_ROWS, GRID_COLS, len. simpl. lia.
  - exists w2. exact Hscript.
Defined.

Lemma wide_grid_ignores_extra_urls_witness :
  (forall row,
     0 <= row < GRID_ROWS [["a"]; ["b"; "c"]]%string ->
     GRID_COLS [["a"]; ["b"; "c"]]%string <=
     len (nth (Z.to_nat row) [["a"]; ["b"; "c"]]%string [])) /\
  exists s w' added,
    tile_loop Sample.served Sample.open_png Sample.decode_png
      Sample.resample Sample.convert_pixels Sample.blend
      [["a"]; ["b"; "c"]]%string 1000 Sample.w0 = (Ok s, w') /\
    trace w' = trace Sample.w0 ++ added /\
    successful_tiles s + len (failed_tiles s) = 2.
Proof.
  assert (Hwide : forall row,
     0 <= row < GRID_ROWS [["a"]; ["b"; "c"]]%string ->
     GRID_COLS [["a"]; ["b"; "c"]]%string <=
     len (nth (Z.to_nat row) [["a"]; ["b"; "c"]]%string [])).
  { intros row Hrow. unfold GRID_ROWS, GRID_COLS, len in *. simpl in Hrow.
    assert (Hcases : row = 0 \/ row = 1) by lia.
    destruct Hcases as [-> | ->]; simpl; lia. }
  split; [exact Hwide|].
  destruct (wide_grid_ignores_extra_urls
              Sample.served Sample.open_png Sample.decode_png
              Sample.resample Sample.convert_pixels Sample.blend
              [["a"]; ["b"; "c"]]%string 1000 Sample.w0 Hwide)
    as (s & w' & added & Hrun & Htrace & _ & Hcount).
  exists s, w', added. split; [exact Hrun|].
  split; [exact Htrace | exact Hcount].
Defined.

Lemma create_merged_image_format_witness :
  rectangular Sample.TILE_URLS /\
  exists r w',
    create_merged_image Sample.served Sample.open_png Sample.decode_png
      Sample.resample Sample.convert_pixels Sample.blend Sample.resize_raises
      Sample.TILE_URLS Sample.TILE_SIZE (-3) Sample.w0 = (r, w') /\
    forall image,
      r = Ok (Some image) ->
      mode image = "RGBA"%string /\ size image = (3000, 2000).
Proof.
  split; [repeat constructor|].
  destruct (create_merged_image_format
              Sample.served Sample.open_png Sample.decode_png
              Sample.resample Sample.convert_pixels Sample.blend Sample.resize_raises
              Sample.TILE_URLS Sample.TILE_SIZE (-3) Sample.w0)
    as (r & w' & Hrun & Hformat & _).
  - repeat constructor.
  - exists r, w'. split; [exact Hrun | exact Hformat].
Defined.

